(** * sample-app-o11y: the instrumented Express application of [app.js]

    A shallow embedding of the request pipeline (the metrics and tracing
    middleware of lines 40-83) and of the route handlers (lines 97-340),
    of the shutdown listener of [tracing.js] and of [make_requests] in the
    load test script, followed by the properties of the specification and
    by further properties of the code.

    Conventions of the embedding.
    - A JavaScript number is a [number]: an integer, [NaN] or an infinity.
      The integers are mathematical ones (the identifiers and status codes
      of the application stay far below 2^53, where doubles stop being
      exact).  Fractions (durations in seconds, uptime) are rationals; where
      the code computes on them, in [/api/slow], the result is rounded as a
      double is.
    - A JavaScript string is held as its UTF-8 encoding, one [ascii] per
      byte; route parameters are well-formed, being decoded from the URL.
    - What a handler reads from its surroundings (the clock, the random
      generator, the ambient span, the registry's text) is an input, the
      record [env].
    - What a handler does to its surroundings (logger, span, metrics, timer)
      is recorded in order, as a list of [effect]s.
    - The array [users] is the state threaded through the handlers. *)

From Stdlib Require Import ZArith QArith Qround String Ascii List Bool Lia DecimalString.
From Stdlib Require Import DecimalPos Qabs Lqa.
Import ListNotations.

Local Open Scope string_scope.
Local Open Scope list_scope.
Local Open Scope Z_scope.

(** ** JavaScript values *)

Inductive number : Type :=
| NaN
| NegInf
| PosInf
| Fin (z : Z).

#[local] Unset Elimination Schemes.
Inductive value : Type :=
| VUndefined
| VNull
| VBool (b : bool)
| VNum (n : number)
| VDec (q : Q)
| VStr (s : string)
| VArr (items : list value)
| VObj (props : list (string * value)).
#[local] Set Elimination Schemes.

(** [ToBoolean]: undefined, null, false, 0, NaN and the empty string are
    falsy, everything else (objects and arrays included) is truthy. *)
Definition truthy (v : value) : bool :=
  match v with
  | VUndefined | VNull => false
  | VBool b => b
  | VNum NaN => false
  | VNum (Fin z) => negb (z =? 0)%Z
  | VNum _ => true
  | VDec q => negb (Qeq_bool q 0)
  | VStr s => negb (s =? "")%string
  | VArr _ | VObj _ => true
  end.

(** [a === b] on numbers: [NaN] differs from everything, itself included. *)
Definition strict_eq (a b : number) : bool :=
  match a, b with
  | Fin x, Fin y => (x =? y)%Z
  | NegInf, NegInf | PosInf, PosInf => true
  | _, _ => false
  end.

(** Addition of numbers ([Infinity + -Infinity] is [NaN]). *)
Definition add (a b : number) : number :=
  match a, b with
  | NaN, _ | _, NaN => NaN
  | PosInf, NegInf | NegInf, PosInf => NaN
  | PosInf, _ | _, PosInf => PosInf
  | NegInf, _ | _, NegInf => NegInf
  | Fin x, Fin y => Fin (x + y)
  end.

(** The larger of two numbers, [NaN] being contagious. *)
Definition max2 (a b : number) : number :=
  match a, b with
  | NaN, _ | _, NaN => NaN
  | PosInf, _ | _, PosInf => PosInf
  | NegInf, x | x, NegInf => x
  | Fin x, Fin y => Fin (Z.max x y)
  end.

(** [Math.max(...args)]: starts from [-Infinity], which is therefore the
    result for no argument at all. *)
Definition Math_max (args : list number) : number :=
  fold_left max2 args NegInf.

(** Decimal rendering of an integer, as a template literal does it. *)
Definition string_of_Z (z : Z) : string :=
  NilZero.string_of_int (Z.to_int z).

(** *** parseInt *)

(** The code points [parseInt] skips before a numeral, the white space and
    line terminators of ECMAScript: TAB, LF, VT, FF, CR, SP, U+00A0, U+1680,
    U+2000 to U+200A, U+2028, U+2029, U+202F, U+205F, U+3000 and U+FEFF. *)
Definition is_white (cp : N) : bool :=
  (((9 <=? cp) && (cp <=? 13)) || (cp =? 32) || (cp =? 160) || (cp =? 5760)
   || ((8192 <=? cp) && (cp <=? 8202)) || (cp =? 8232) || (cp =? 8233)
   || (cp =? 8239) || (cp =? 8287) || (cp =? 12288) || (cp =? 65279))%N.

(** A byte that continues a character in UTF-8. *)
Definition is_continuation (c : ascii) : bool :=
  ((128 <=? N_of_ascii c) && (N_of_ascii c <? 192))%N.

(** [s] without its leading white space.  The first character is decoded
    from one, two or three bytes (a byte that starts no character counts
    for itself); white space has no longer encoding. *)
Fixpoint trim_start (s : string) : string :=
  match s with
  | EmptyString => s
  | String c0 r0 =>
      let b0 := N_of_ascii c0 in
      if (b0 <? 192)%N then
        if is_white b0 then trim_start r0 else s
      else if (b0 <? 224)%N then
        match r0 with
        | String c1 r1 =>
            if is_continuation c1
               && is_white ((b0 - 192) * 64 + (N_of_ascii c1 - 128))%N
            then trim_start r1 else s
        | EmptyString => s
        end
      else if (b0 <? 240)%N then
        match r0 with
        | String c1 (String c2 r2) =>
            if is_continuation c1 && is_continuation c2
               && is_white (((b0 - 224) * 64 + (N_of_ascii c1 - 128)) * 64
                            + (N_of_ascii c2 - 128))%N
            then trim_start r2 else s
        | _ => s
        end
      else s
  end.

(** The value of a character as a digit, letters counting from ten. *)
Definition digit_of (c : ascii) : option Z :=
  let n := Z.of_nat (nat_of_ascii c) in
  if (48 <=? n) && (n <=? 57) then Some (n - 48)
  else if (97 <=? n) && (n <=? 122) then Some (n - 87)
  else if (65 <=? n) && (n <=? 90) then Some (n - 55)
  else None.

(** The longest prefix of [s] made of digits below [radix], read as a
    numeral; [acc] is [None] as long as no digit was read. *)
Fixpoint digits (radix : Z) (s : string) (acc : option Z) : option Z :=
  match s with
  | String c r =>
      match digit_of c with
      | Some d =>
          if d <? radix
          then digits radix r (Some (match acc with
                                     | Some a => a * radix + d
                                     | None => d
                                     end))
          else acc
      | None => acc
      end
  | EmptyString => acc
  end.

(** [parseInt(s)] with no radix: leading white space, an optional sign, an
    optional [0x] prefix switching to base sixteen, then as many digits as
    there are; [NaN] when there is none.  The result is the integer the
    digits denote; the code holds the double nearest to it, [to_double],
    which is that integer as long as it is below 2^53, as every identifier
    is. *)
Definition parseInt (s : string) : number :=
  let s1 := trim_start s in
  let '(sign, s2) :=
    match s1 with
    | String "-" r => (-1, r)
    | String "+" r => (1, r)
    | _ => (1, s1)
    end in
  let '(radix, s3) :=
    match s2 with
    | String "0" (String "x" r) => (16, r)
    | String "0" (String "X" r) => (16, r)
    | _ => (10, s2)
    end in
  match digits radix s3 None with
  | Some n => Fin (sign * n)
  | None => NaN
  end.

(** The double nearest to an integer, ties to even, an infinity from
    [2^1024 - 2^970] on: what the code holds for an integer it computes. *)
Definition nearest_double (z : Z) : number :=
  let a := Z.abs z in
  let e := Z.log2 a - 52 in
  if e <=? 0 then Fin z
  else
    let q := a / 2 ^ e in
    let r := a mod 2 ^ e in
    let half := 2 ^ (e - 1) in
    let q' := if (half <? r) || ((r =? half) && Z.odd q) then q + 1 else q in
    let m := q' * 2 ^ e in
    if 2 ^ 1024 <=? m then (if z <? 0 then NegInf else PosInf)
    else Fin (Z.sgn z * m).

(** The same on numbers. *)
Definition to_double (n : number) : number :=
  match n with
  | Fin z => nearest_double z
  | _ => n
  end.

(** *** Doubles *)

(** [2^k], for any integer [k]. *)
Definition pow2 (k : Z) : Q :=
  if 0 <=? k then inject_Z (2 ^ k) else / inject_Z (2 ^ (- k)).

(** The binary exponent of a positive rational: the [k] with
    [2^k <= x < 2^(k+1)]. *)
Definition exponent (x : Q) : Z :=
  if Qle_bool 1 x then Z.log2 (Qfloor x)
  else - Z.log2_up (Qceiling (/ x)).

(** The nearest integer, the even one of two that are equally near. *)
Definition round_half_even (y : Q) : Z :=
  let f := Qfloor y in
  match (y - inject_Z f ?= 1 # 2)%Q with
  | Lt => f
  | Gt => f + 1
  | Eq => if Z.even f then f else f + 1
  end.

(** The double nearest to a rational, as IEEE 754 rounds the exact result
    of an operation: to 53 significant bits (fewer below [2^-1022], where
    doubles are 2^-1074 apart), ties to even.  The overflow to an infinity,
    from 2^1024 on, is left aside: nothing here comes near it. *)
Definition round_double (x : Q) : Q :=
  let a := Qabs x in
  if Qle_bool a 0 then 0%Q
  else
    let ulp := pow2 (Z.max (exponent a) (-1022) - 52) in
    let r := (inject_Z (round_half_even (a / ulp)) * ulp)%Q in
    if Qle_bool 0 x then r else (- r)%Q.

(** [a * b] on doubles. *)
Definition mul (a b : Q) : Q := round_double (a * b).

(** The rationals that are doubles. *)
Definition is_double (x : Q) : bool := Qeq_bool (round_double x) x.

Arguments mul : simpl never.

(** *** Objects *)

Fixpoint lookup {A : Type} (k : string) (ps : list (string * A)) : option A :=
  match ps with
  | [] => None
  | (k', v) :: r => if (k =? k')%string then Some v else lookup k r
  end.

(** Destructuring or reading a property of [undefined] or [null] throws. *)
Definition nullish (v : value) : bool :=
  match v with
  | VUndefined | VNull => true
  | _ => false
  end.

(** [v.k] for the keys the handlers read ([name], [email], [role]), which
    neither arrays nor primitives carry. *)
Definition prop (v : value) (k : string) : value :=
  match v with
  | VObj ps => match lookup k ps with Some x => x | None => VUndefined end
  | _ => VUndefined
  end.

(** A destructuring default, [{ k = d }]: used only when the property is
    [undefined]. *)
Definition default_to (d v : value) : value :=
  match v with
  | VUndefined => d
  | _ => v
  end.

(** [a || b]. *)
Definition or_else (a b : value) : value :=
  if truthy a then a else b.

(** [String.prototype.toLowerCase], on ASCII letters. *)
Definition lower (c : ascii) : ascii :=
  let n := nat_of_ascii c in
  if ((65 <=? n) && (n <=? 90))%nat then ascii_of_nat (n + 32) else c.

Fixpoint toLowerCase (s : string) : string :=
  match s with
  | String c r => String (lower c) (toLowerCase r)
  | EmptyString => EmptyString
  end.

(** ** Data model *)

Module User.
Record t : Type := {
  id : number;
  name : value;
  email : value;
  role : value
}.
End User.
Definition user : Type := User.t.

(** The sample data the array [users] holds when the process starts. *)
Definition users : list user := [
  {| User.id := Fin 1; User.name := VStr "Alice Johnson";
     User.email := VStr "alice@example.com"; User.role := VStr "admin" |};
  {| User.id := Fin 2; User.name := VStr "Bob Smith";
     User.email := VStr "bob@example.com"; User.role := VStr "user" |};
  {| User.id := Fin 3; User.name := VStr "Charlie Brown";
     User.email := VStr "charlie@example.com"; User.role := VStr "user" |};
  {| User.id := Fin 4; User.name := VStr "Diana Prince";
     User.email := VStr "diana@example.com";
     User.role := VStr "moderator" |}
].

(** A user as the object literal it is. *)
Definition user_value (u : user) : value :=
  VObj [("id", VNum (User.id u)); ("name", User.name u);
        ("email", User.email u); ("role", User.role u)].

(** ** Requests, routes and responses *)

Record request : Type := {
  req_method : string;
  req_url : string;
  req_path : string;
  req_headers : list (string * string);  (* keys in lower case *)
  req_ip : value;
  req_body : value                       (* as [express.json()] left it *)
}.

(** [req.get(h)]: the header of that name, whatever its case. *)
Definition req_get (req : request) (h : string) : value :=
  match lookup (toLowerCase h) (req_headers req) with
  | Some s => VStr s
  | None => VUndefined
  end.

(** The routes registered on [app]; [UserById] carries [req.params.id]. *)
Inductive endpoint : Type :=
| Root
| Health
| UsersList
| UserById (id_param : string)
| CreateUser
| Slow
| ErrorRoute
| Metrics.

Record route : Type := { path : string }.

Definition route_of (ep : endpoint) : route :=
  {| path :=
       match ep with
       | Root => "/"
       | Health => "/api/health"
       | UsersList => "/api/users"
       | UserById _ => "/api/users/:id"
       | CreateUser => "/api/users"
       | Slow => "/api/slow"
       | ErrorRoute => "/api/error"
       | Metrics => "/metrics"
       end |}.

(** What the framework's router made of a request: it resolved one of the
    routes above, or none of them took the request and the framework itself
    answered with [status] (404 for an unknown path or method). *)
Inductive dispatch : Type :=
| Matched (ep : endpoint)
| Unmatched (status : Z).

(** [req.route], set by the router on a match only. *)
Definition req_route (d : dispatch) : option route :=
  match d with
  | Matched ep => Some (route_of ep)
  | Unmatched _ => None
  end.

Inductive content : Type :=
| Json (v : value)                            (* res.json(v) *)
| Document                                    (* the static page of [/] *)
| Text (content_type : string) (s : string)   (* res.set(..); res.end(s) *)
| Framework.                                  (* the framework's own reply *)

Record response : Type := {
  statusCode : Z;
  sent : content
}.

(** ** Surroundings: what is read, what is done *)

Record env : Type := {
  active_span : bool;    (* does trace.getActiveSpan() return a span *)
  start : Z;             (* Date.now() when the middleware runs *)
  finish : Z;            (* Date.now() when the response has finished *)
  iso_now : string;      (* new Date().toISOString() in the handler *)
  random : Q;            (* Math.random() *)
  uptime : Q;            (* process.uptime() *)
  metrics_text : string; (* await register.metrics() *)
  contentType : string   (* register.contentType *)
}.

Record labels : Type := {
  method : string;
  route_label : string;  (* the label [route] *)
  status_code : Z
}.

Inductive level : Type := info | warn | error.

Inductive SpanStatusCode : Type := UNSET | OK | ERROR.

Inductive effect : Type :=
| Inc (l : labels)                          (* httpRequestsTotal.inc *)
| Observe (l : labels) (seconds : Q)        (* httpRequestDuration.observe *)
| AddEvent (event : string)                 (* span.addEvent *)
| SetAttributes (attrs : list (string * value))
| SetStatus (code : SpanStatusCode) (message : string)
| Logged (lv : level) (message : string) (fields : list (string * value))
| SetTimeout (ms : Z).                      (* awaiting a timer *)

(** ** The monad of handlers: the [users] array as state, a trace of
    effects, and exceptions. *)

Inductive completion (A : Type) : Type :=
| Normal (a : A)
| Thrown (err : string).
Arguments Normal {A} a.
Arguments Thrown {A} err.

Definition M (A : Type) : Type :=
  list user -> completion A * list user * list effect.

Definition ret {A} (a : A) : M A := fun us => (Normal a, us, []).

Definition bind {A B} (m : M A) (k : A -> M B) : M B :=
  fun us =>
    match m us with
    | (Normal a, us1, t1) =>
        let '(r, us2, t2) := k a us1 in (r, us2, t1 ++ t2)
    | (Thrown err, us1, t1) => (Thrown err, us1, t1)
    end.

Declare Scope js_scope.
Delimit Scope js_scope with js.
Notation "x <- m ;; k" := (bind m (fun x => k))
  (at level 61, m at next level, right associativity) : js_scope.
Notation "m ;; k" := (bind m (fun _ => k))
  (at level 61, right associativity) : js_scope.
Local Open Scope js_scope.

Definition emit (e : effect) : M unit := fun us => (Normal tt, us, [e]).
Definition throw {A} (err : string) : M A := fun us => (Thrown err, us, []).
Definition read_users : M (list user) := fun us => (Normal us, us, []).
Definition push (u : user) : M unit := fun us => (Normal tt, us ++ [u], []).

(** [if (c) { m }]. *)
Definition when (c : bool) (m : M unit) : M unit :=
  if c then m else ret tt.

(** [try { m } catch (err) { h err }]: the framework around a handler. *)
Definition try_catch {A} (m : M A) (h : string -> M A) : M A :=
  fun us =>
    match m us with
    | (Normal a, us1, t1) => (Normal a, us1, t1)
    | (Thrown err, us1, t1) =>
        let '(r, us2, t2) := h err us1 in (r, us2, t1 ++ t2)
    end.

Definition outcome {A} (r : completion A * list user * list effect) := fst (fst r).
Definition store {A} (r : completion A * list user * list effect) := snd (fst r).
Definition trace {A} (r : completion A * list user * list effect) := snd r.

(** ** Route handlers *)

Definition log (lv : level) (message : string)
    (fields : list (string * value)) : M unit :=
  emit (Logged lv message fields).

Definition json (status : Z) (v : value) : response :=
  {| statusCode := status; sent := Json v |}.

Definition length_of (us : list user) : value :=
  VNum (Fin (Z.of_nat (length us))).

(** [app.get('/')]. *)
Definition root_handler (e : env) (req : request) : M response :=
  when (active_span e)
    (emit (AddEvent "Handling root request") ;;
     emit (SetAttributes [("custom.route", VStr "root");
                          ("custom.response_type", VStr "html")])) ;;
  log info "Root endpoint accessed" [] ;;
  ret {| statusCode := 200; sent := Document |}.

(** [app.get('/api/health')]. *)
Definition health_handler (e : env) (req : request) : M response :=
  when (active_span e)
    (emit (AddEvent "Health check requested") ;;
     emit (SetAttributes [("custom.route", VStr "health");
                          ("custom.health_status", VStr "ok")])) ;;
  log info "Health check endpoint accessed" [] ;;
  ret (json 200 (VObj [("status", VStr "ok");
                       ("timestamp", VStr (iso_now e));
                       ("uptime", VDec (uptime e));
                       ("version", VStr "1.0.0")])).

(** [app.get('/api/users')]. *)
Definition users_handler (e : env) (req : request) : M response :=
  when (active_span e)
    (emit (AddEvent "Fetching all users") ;;
     us <- read_users ;;
     emit (SetAttributes [("custom.route", VStr "users_list");
                          ("custom.users_count", length_of us)])) ;;
  us <- read_users ;;
  log info "Users list requested" [("count", length_of us)] ;;
  ret (json 200 (VObj [("users", VArr (map user_value us));
                       ("total", length_of us);
                       ("timestamp", VStr (iso_now e))])).

(** [app.get('/api/users/:id')]. *)
Definition user_handler (id_param : string) (e : env) (req : request)
    : M response :=
  let userId := parseInt id_param in
  when (active_span e)
    (emit (AddEvent "Fetching user by ID") ;;
     emit (SetAttributes [("custom.route", VStr "user_by_id");
                          ("custom.user_id", VNum userId)])) ;;
  us <- read_users ;;
  match find (fun u => strict_eq (User.id u) userId) us with
  | None =>
      when (active_span e) (emit (SetStatus ERROR "User not found")) ;;
      log warn "User not found" [("userId", VNum userId)] ;;
      ret (json 404 (VObj [("error", VStr "User not found")]))
  | Some user =>
      when (active_span e)
        (emit (SetAttributes [("custom.user_name", User.name user);
                              ("custom.user_role", User.role user)])) ;;
      log info "User found" [("userId", VNum userId);
                             ("userName", User.name user)] ;;
      ret (json 200 (VObj [("user", user_value user);
                           ("timestamp", VStr (iso_now e))]))
  end.

(** [app.post('/api/users')]. *)
Definition create_handler (e : env) (req : request) : M response :=
  if nullish (req_body req) then throw "TypeError" else
  let name := prop (req_body req) "name" in
  let email := prop (req_body req) "email" in
  let role := default_to (VStr "user") (prop (req_body req) "role") in
  when (active_span e)
    (emit (AddEvent "Creating new user") ;;
     emit (SetAttributes [("custom.route", VStr "create_user");
                          ("custom.user_role", role)])) ;;
  if negb (truthy name) || negb (truthy email) then
    when (active_span e)
      (emit (SetStatus ERROR "Missing required fields")) ;;
    log error "User creation failed - missing fields"
      [("name", name); ("email", email)] ;;
    ret (json 400 (VObj [("error", VStr "Name and email are required")]))
  else
    us <- read_users ;;
    let newUser :=
      {| User.id := add (Math_max (map User.id us)) (Fin 1);
         User.name := name;
         User.email := email;
         User.role := role |} in
    push newUser ;;
    when (active_span e)
      (emit (SetAttributes [("custom.user_id", VNum (User.id newUser));
                            ("custom.user_name", User.name newUser)])) ;;
    log info "User created" [("userId", VNum (User.id newUser));
                             ("userName", User.name newUser);
                             ("userEmail", User.email newUser)] ;;
    ret (json 201 (VObj [("user", user_value newUser);
                         ("timestamp", VStr (iso_now e))])).

(** [app.get('/api/slow')]. *)
Definition slow_handler (e : env) (req : request) : M response :=
  let delay := Qfloor (mul (random e) 3000) + 1000 in
  when (active_span e)
    (emit (AddEvent "Slow endpoint accessed") ;;
     emit (SetAttributes [("custom.route", VStr "slow");
                          ("custom.delay_ms", VNum (Fin delay))])) ;;
  log info "Slow endpoint accessed" [("delay", VNum (Fin delay))] ;;
  emit (SetTimeout delay) ;;
  ret (json 200 (VObj [("message", VStr "This was intentionally slow");
                       ("delay", VNum (Fin delay));
                       ("timestamp", VStr (iso_now e))])).

(** [app.get('/api/error')]. *)
Definition error_handler (e : env) (req : request) : M response :=
  when (active_span e)
    (emit (AddEvent "Error endpoint accessed") ;;
     emit (SetAttributes [("custom.route", VStr "error");
                          ("custom.error_type", VStr "intentional")]) ;;
     emit (SetStatus ERROR "Intentional error for testing")) ;;
  log error "Intentional error triggered" [] ;;
  ret (json 500 (VObj [("error",
                        VStr "This is an intentional error for testing");
                       ("timestamp", VStr (iso_now e))])).

(** [app.get('/metrics')]. *)
Definition metrics_handler (e : env) (req : request) : M response :=
  ret {| statusCode := 200; sent := Text (contentType e) (metrics_text e) |}.

Definition handler (ep : endpoint) : env -> request -> M response :=
  match ep with
  | Root => root_handler
  | Health => health_handler
  | UsersList => users_handler
  | UserById id_param => user_handler id_param
  | CreateUser => create_handler
  | Slow => slow_handler
  | ErrorRoute => error_handler
  | Metrics => metrics_handler
  end.

(** ** The request pipeline *)

(** [(Date.now() - start) / 1000]: the elapsed time in seconds. *)
Definition elapsed (e : env) : Q := Qmake (finish e - start e) 1000.

(** The listener registered with [res.on('finish', ...)]. *)
Definition on_finish (e : env) (req : request) (d : dispatch)
    (res : response) : M unit :=
  let duration := elapsed e in
  let labels :=
    {| method := req_method req;
       route_label := match req_route d with
                      | Some r => path r
                      | None => req_path req
                      end;
       status_code := statusCode res |} in
  emit (Inc labels) ;;
  emit (Observe labels duration) ;;
  when (active_span e)
    (emit (SetAttributes
             [("http.method", VStr (req_method req));
              ("http.url", VStr (req_url req));
              ("http.status_code", VNum (Fin (statusCode res)));
              ("http.user_agent", or_else (req_get req "User-Agent") (VStr ""));
              ("http.request_duration", VDec duration)]) ;;
     when (400 <=? statusCode res)
       (emit (SetStatus ERROR
                ("HTTP " ++ string_of_Z (statusCode res))%string))) ;;
  log info "HTTP Request"
    [("method", VStr (req_method req));
     ("url", VStr (req_url req));
     ("statusCode", VNum (Fin (statusCode res)));
     ("duration", VDec duration);
     ("userAgent", req_get req "User-Agent");
     ("ip", req_ip req)].

(** The router and what the framework does around it: the matched handler
    runs; an exception escaping it, or no match, is answered by the
    framework itself. *)
Definition router (e : env) (req : request) (d : dispatch) : M response :=
  match d with
  | Matched ep =>
      try_catch (handler ep e req)
        (fun _ => ret {| statusCode := 500; sent := Framework |})
  | Unmatched status => ret {| statusCode := status; sent := Framework |}
  end.

(** The middleware of lines 40-83 around the rest of the application: the
    listener runs once the response has finished. *)
Definition app (e : env) (req : request) (d : dispatch) : M response :=
  res <- router e req d ;;
  on_finish e req d res ;;
  ret res.

(** The contents of [users] after any number of requests. *)
Inductive reachable : list user -> Prop :=
| reachable_start : reachable users
| reachable_request us e req d :
    reachable us -> reachable (store (app e req d us)).

(** A run of requests, one after the other, and the array it leaves. *)
Definition run (rs : list (env * request * dispatch)) (us : list user)
    : list user :=
  fold_left (fun us r => store (app (fst (fst r)) (snd (fst r)) (snd r) us))
            rs us.

(** ** The span, as the trace of effects leaves it *)

Record span : Type := {
  attributes : list (string * value);   (* newest first *)
  events : list string;
  status : SpanStatusCode * string
}.

Definition apply_effect (s : span) (ef : effect) : span :=
  match ef with
  | AddEvent ev =>
      {| attributes := attributes s; events := events s ++ [ev];
         status := status s |}
  | SetAttributes attrs =>
      {| attributes := fold_left (fun acc kv => kv :: acc) attrs (attributes s);
         events := events s; status := status s |}
  | SetStatus code message =>
      {| attributes := attributes s; events := events s;
         status := (code, message) |}
  | _ => s
  end.

Definition run_span (s : span) (tr : list effect) : span :=
  fold_left apply_effect tr s.

(** ** Classifying effects *)

Definition is_metric (ef : effect) : bool :=
  match ef with
  | Inc _ | Observe _ _ => true
  | _ => false
  end.

Definition is_status (ef : effect) : bool :=
  match ef with
  | SetStatus _ _ => true
  | _ => false
  end.

Definition is_log (ef : effect) : bool :=
  match ef with
  | Logged _ _ _ => true
  | _ => false
  end.

Definition is_post_users (r : env * request * dispatch) : bool :=
  match snd r with
  | Matched CreateUser => true
  | _ => false
  end.

Definition is_timer (ef : effect) : bool :=
  match ef with
  | SetTimeout _ => true
  | _ => false
  end.

(** The log record of the pipeline, told by its message. *)
Definition is_request_log (ef : effect) : bool :=
  match ef with
  | Logged _ message _ => (message =? "HTTP Request")%string
  | _ => false
  end.

(** ** Predicates on the array *)

(** An integer, as opposed to [NaN] and the infinities. *)
Definition finite (n : number) : Prop := exists z, n = Fin z.

(** The array is non-empty and its identifiers are distinct integers. *)
Definition well_formed (us : list user) : Prop :=
  us <> [] /\ Forall finite (map User.id us) /\ NoDup (map User.id us).

(** The user that [POST /api/users] builds from a body. *)
Definition new_user (us : list user) (body : value) : user :=
  {| User.id := add (Math_max (map User.id us)) (Fin 1);
     User.name := prop body "name";
     User.email := prop body "email";
     User.role := default_to (VStr "user") (prop body "role") |}.

(** ** Sample inputs *)

Definition sample_env : env :=
  {| active_span := true; start := 1000; finish := 1250;
     iso_now := "2024-01-01T00:00:00.000Z"; random := 1 # 2;
     uptime := 12 # 1; metrics_text := ""; contentType := "text/plain" |}.

Definition sample_request (m p : string) (b : value) : request :=
  {| req_method := m; req_url := p; req_path := p;
     req_headers := [("user-agent", "curl/8.0")];
     req_ip := VStr "127.0.0.1"; req_body := b |}.

Definition sample_body : value :=
  VObj [("name", VStr "X"); ("email", VStr "y@z.com")].

(** ** Further notions used by the properties *)

(** The identifiers 1, 2, ..., [n]. *)
Definition ids_upto (n : nat) : list number :=
  map (fun i => Fin (Z.of_nat i)) (seq 1 n).

(** The calls made on the span. *)
Definition is_span_effect (ef : effect) : bool :=
  match ef with
  | AddEvent _ | SetAttributes _ | SetStatus _ _ => true
  | _ => false
  end.

(** The same surroundings, with or without an active span. *)
Definition set_active_span (b : bool) (e : env) : env :=
  {| active_span := b; start := start e; finish := finish e;
     iso_now := iso_now e; random := random e; uptime := uptime e;
     metrics_text := metrics_text e; contentType := contentType e |}.

(** A request as the process sees it to its end.  When its response
    finishes, the listener of the pipeline runs; when it never does, the
    connection being lost first, the handler has run all the same but
    [finish] is not emitted and the listener never runs. *)
Definition serve (finished : bool) (e : env) (req : request) (d : dispatch)
    : M response :=
  if finished then app e req d else router e req d.

(** The traces of a run of requests, one after the other, each with
    whether its response finished. *)
Fixpoint serve_trace (rs : list (bool * (env * request * dispatch)))
    (us : list user) : list effect :=
  match rs with
  | [] => []
  | (finished, (e, req, d)) :: rs' =>
      let reply := serve finished e req d us in
      trace reply ++ serve_trace rs' (store reply)
  end.

Definition labels_eqb (a b : labels) : bool :=
  (method a =? method b)%string && (route_label a =? route_label b)%string
  && (status_code a =? status_code b).

(** The value of the counter [http_requests_total] for the labels [l],
    after the effects [tr]: one per increment under these labels. *)
Definition requests_total (l : labels) (tr : list effect) : nat :=
  length (filter (fun ef => match ef with
                            | Inc l' => labels_eqb l l'
                            | _ => false
                            end) tr).

(** A request with method [m] that the router gave to [/api/health]. *)
Definition is_health (m : string) (r : env * request * dispatch) : bool :=
  match snd r with
  | Matched Health => (req_method (snd (fst r)) =? m)%string
  | _ => false
  end.

(** ** Shutdown of the tracing SDK ([tracing.js], lines 24-29) *)

Inductive process_effect : Type :=
| ConsoleLog (args : list string)
| Exit (code : Z).

(** A settled promise, with what was done on the way. *)
Inductive settled : Type :=
| Resolved
| Rejected (err : string).

Definition promise : Type := list process_effect * settled.

(** [p.then(f)]: [f] runs when [p] is fulfilled. *)
Definition then_ (p : promise) (f : unit -> promise) : promise :=
  match snd p with
  | Resolved => let q := f tt in (fst p ++ fst q, snd q)
  | Rejected _ => p
  end.

(** [p.catch(g)]: [g] runs when [p] is rejected. *)
Definition catch_ (p : promise) (g : string -> promise) : promise :=
  match snd p with
  | Resolved => p
  | Rejected err => let q := g err in (fst p ++ fst q, snd q)
  end.

(** [p.finally(h)]: [h] runs either way; the outcome of [p] is kept unless
    [h] itself is rejected. *)
Definition finally_ (p : promise) (h : unit -> promise) : promise :=
  let q := h tt in
  (fst p ++ fst q,
   match snd q with
   | Resolved => snd p
   | Rejected err => Rejected err
   end).

Definition console_log (args : list string) : promise :=
  ([ConsoleLog args], Resolved).

Definition process_exit (code : Z) : promise := ([Exit code], Resolved).

(** The listener of [SIGTERM]; [shutdown] is how [sdk.shutdown()] settles. *)
Definition on_SIGTERM (shutdown : settled) : promise :=
  finally_
    (catch_
       (then_ ([], shutdown) (fun _ => console_log ["Tracing terminated"]))
       (fun err => console_log ["Error terminating tracing"; err]))
    (fun _ => process_exit 0).

(** ** The load test script: [make_requests] *)

Definition APP_URL : string := "http://localhost:8080".

(** One invocation of [curl -s]. *)
Record curl : Type := {
  curl_X : option string;                 (* -X *)
  curl_H : list string;                   (* -H *)
  curl_d : option string;                 (* -d *)
  curl_url : string
}.

(** The parameter expansion [${n:-word}]: [word] when the parameter is unset
    or empty. *)
Definition expand_default (arg : option string) (word : string) : string :=
  match arg with
  | Some s => if (s =? "")%string then word else s
  | None => word
  end.

(** [make_requests endpoint [method [data]]]. *)
Definition make_requests (arg1 arg2 arg3 : option string) : curl :=
  let endpoint := expand_default arg1 "" in
  let method := expand_default arg2 "GET" in
  let data := expand_default arg3 "" in
  if (method =? "POST")%string && negb (data =? "")%string
  then {| curl_X := Some "POST";
          curl_H := ["Content-Type: application/json"];
          curl_d := Some data;
          curl_url := (APP_URL ++ endpoint)%string |}
  else {| curl_X := None; curl_H := []; curl_d := None;
          curl_url := (APP_URL ++ endpoint)%string |}.

(** Text at which a decimal numeral stops: empty, or starting with a
    character that is not one of the ten digits. *)
Definition stops_numeral (s : string) : bool :=
  match s with
  | String c _ =>
      match digit_of c with
      | Some k => 10 <=? k
      | None => true
      end
  | EmptyString => true
  end.

(** A parameter that is not numeric: after the white space and one sign,
    if any, it does not start with a decimal digit. *)
Definition not_numeric (s : string) : bool :=
  stops_numeral
    match trim_start s with
    | String "-" r => r
    | String "+" r => r
    | s1 => s1
    end.

(** The UTF-8 encoding of a code point below 2^16. *)
Definition utf8 (cp : N) : string :=
  (if cp <? 128 then String (ascii_of_N cp) ""
   else if cp <? 2048 then
     String (ascii_of_N (192 + cp / 64))
       (String (ascii_of_N (128 + cp mod 64)) "")
   else
     String (ascii_of_N (224 + cp / 4096))
       (String (ascii_of_N (128 + (cp / 64) mod 64))
          (String (ascii_of_N (128 + cp mod 64)) "")))%N.

(** The white space and line terminators of ECMAScript. *)
Definition white_space : list N :=
  [9; 10; 11; 12; 13; 32; 160; 5760; 8192; 8193; 8194; 8195; 8196; 8197;
   8198; 8199; 8200; 8201; 8202; 8232; 8233; 8239; 8287; 12288; 65279]%N.

(** The string made of the characters [cps]. *)
Fixpoint utf8_string (cps : list N) : string :=
  match cps with
  | [] => ""
  | cp :: r => (utf8 cp ++ utf8_string r)%string
  end.

(** What is left of a trace once the calls on the span are taken out. *)
Definition without_span_effects (tr : list effect) : list effect :=
  filter (fun ef => negb (is_span_effect ef)) tr.

Definition is_inc (ef : effect) : bool :=
  match ef with
  | Inc _ => true
  | _ => false
  end.

(** * Properties *)

(** ** [parseInt] on a few path parameters *)

Example parseInt_decimal : parseInt "2" = Fin 2.
Proof. reflexivity. Qed.

Example parseInt_letters : parseInt "abc" = NaN.
Proof. reflexivity. Qed.

Example parseInt_empty : parseInt "" = NaN.
Proof. reflexivity. Qed.

Example parseInt_prefix : parseInt "2abc" = Fin 2.
Proof. reflexivity. Qed.

Example parseInt_hexadecimal : parseInt " -0x1fz" = Fin (-31).
Proof. reflexivity. Qed.

(** U+00A0 before the numeral, in UTF-8 (and as the single byte 160). *)
Example parseInt_no_break_space :
  parseInt (String "194" (String "160" "2")) = Fin 2 /\
  parseInt (utf8 160 ++ "2") = Fin 2 /\
  parseInt (String "160" "2") = Fin 2.
Proof. repeat split. Qed.

Example parseInt_white_space :
  parseInt (utf8_string [9; 8232; 12288; 65279; 32]%N ++ "+42px") = Fin 42.
Proof. reflexivity. Qed.

Example string_of_Z_404 : string_of_Z 404 = "404".
Proof. reflexivity. Qed.

(** ** Running the monad *)

Ltac run_monad :=
  unfold app, router, handler, on_finish, root_handler, health_handler,
    users_handler, user_handler, create_handler, slow_handler,
    error_handler, metrics_handler, try_catch, when, log, bind, ret, emit,
    throw, read_users, push, outcome, store, trace; cbn [fst snd app].

Lemma on_finish_run e req d res us :
  on_finish e req d res us = (Normal tt, us, trace (on_finish e req d res [])).
Proof.
  run_monad.
  destruct (active_span e); [destruct (400 <=? statusCode res)|]; reflexivity.
Qed.

(** The router always answers, never touches the metrics, and leaves the
    array as it was unless it created a user. *)
Lemma router_run e req d us :
  exists res us' t,
    router e req d us = (Normal res, us', t) /\
    filter is_metric t = [] /\
    (us' = us \/
     d = Matched CreateUser /\
     us' = us ++ [new_user us (req_body req)]).
Proof.
  destruct d as [ep | st]; [destruct ep|]; run_monad.
  all: try (destruct (active_span e); cbn; do 3 eexists;
            repeat split; auto; fail).
  - destruct (active_span e); cbn;
      match goal with |- context [find ?f us] => destruct (find f us) end;
      cbn; do 3 eexists; repeat split; auto.
  - destruct (nullish (req_body req)); cbn;
      [do 3 eexists; repeat split; auto|].
    destruct (active_span e); cbn;
      destruct (negb (truthy (prop (req_body req) "name"))
                || negb (truthy (prop (req_body req) "email"))); cbn;
      do 3 eexists; repeat split; auto.
Qed.

Lemma app_run e req d us res us' t :
  router e req d us = (Normal res, us', t) ->
  app e req d us = (Normal res, us', t ++ trace (on_finish e req d res [])).
Proof.
  intros Hr. unfold app, bind. rewrite Hr, on_finish_run.
  unfold ret. cbn. now rewrite app_nil_r.
Qed.

(** ** Numbers *)


Lemma strict_eq_true a b : strict_eq a b = true -> a = b.
Proof.
  destruct a, b; cbn; try discriminate; auto.
  intros H. apply Z.eqb_eq in H. now subst.
Qed.

Lemma strict_eq_Fin z : strict_eq (Fin z) (Fin z) = true.
Proof. cbn. apply Z.eqb_refl. Qed.

Lemma fold_max2_Fin ns : Forall finite ns -> forall a,
  exists m, fold_left max2 ns (Fin a) = Fin m /\ a <= m /\
            (m = a \/ In (Fin m) ns) /\
            (forall z, In (Fin z) ns -> z <= m).
Proof.
  induction 1 as [| n ns [x ->] _ IH]; intros a; cbn.
  - exists a. repeat split; auto; try lia; intros z [].
  - destruct (IH (Z.max a x)) as (m & Hm & Hle & Hin & Hub).
    exists m. split; [exact Hm|]. split; [lia|]. split.
    + destruct Hin as [-> | Hin]; [|now auto].
      destruct (Z.max_spec a x) as [[_ ->] | [_ ->]]; auto.
    + intros z [Hz | Hz]; [injection Hz as <-; lia | auto].
Qed.

(** On a non-empty list of integers [Math.max] is the greatest of them. *)
Lemma Math_max_Fin ns :
  Forall finite ns -> ns <> [] ->
  exists m, Math_max ns = Fin m /\ In (Fin m) ns /\
            (forall z, In (Fin z) ns -> z <= m).
Proof.
  intros Hf Hne. destruct ns as [| n ns]; [contradiction|].
  inversion Hf as [| ? ? [x ->] Hf']; subst.
  destruct (fold_max2_Fin ns Hf' x) as (m & Hm & Hle & Hin & Hub).
  exists m. unfold Math_max. cbn. split; [exact Hm|]. split.
  - destruct Hin as [-> | Hin]; [now left | now right].
  - intros z [Hz | Hz]; [injection Hz as <-; lia | auto].
Qed.

(** ** The invariant of the array *)


Lemma well_formed_users : well_formed users.
Proof.
  repeat split.
  - discriminate.
  - repeat constructor; eexists; reflexivity.
  - cbn. repeat constructor; cbn; intuition discriminate.
Qed.

Lemma well_formed_push us u :
  well_formed us ->
  User.id u = add (Math_max (map User.id us)) (Fin 1) ->
  well_formed (us ++ [u]).
Proof.
  intros (Hne & Hf & Hnd) Hid.
  destruct (Math_max_Fin (map User.id us) Hf) as (m & Hm & _ & Hub).
  { destruct us; [contradiction | discriminate]. }
  rewrite Hm in Hid. cbn in Hid.
  repeat split.
  - destruct us; discriminate.
  - rewrite map_app. apply Forall_app. split; [exact Hf|].
    repeat constructor. now exists (m + 1).
  - rewrite map_app. cbn. apply NoDup_app; [exact Hnd | | ].
    + repeat constructor. intros [].
    + intros n Hn [<- | []]. rewrite Hid in Hn.
      apply Hub in Hn. lia.
Qed.

Lemma well_formed_app e req d us :
  well_formed us -> well_formed (store (app e req d us)).
Proof.
  intros Hwf.
  destruct (router_run e req d us) as (res & us' & t & Hr & _ & Hus).
  rewrite (app_run _ _ _ _ _ _ _ Hr). cbn.
  destruct Hus as [-> | [_ ->]]; [exact Hwf|].
  now apply well_formed_push.
Qed.

Lemma reachable_well_formed us : reachable us -> well_formed us.
Proof.
  induction 1 as [| us e req d _ IH].
  - exact well_formed_users.
  - now apply well_formed_app.
Qed.

(** ** Decimal identifiers *)

Lemma digits_step c k s acc :
  digit_of c = Some k -> (k <? 10) = true ->
  digits 10 (String c s) acc =
  digits 10 s (Some match acc with Some a => a * 10 + k | None => k end).
Proof. intros H1 H2. cbn [digits]. now rewrite H1, H2. Qed.

Ltac read_digit :=
  erewrite digits_step by reflexivity;
  match goal with
  | |- context [Z.of_nat (nat_of_ascii ?c) - 48] =>
      let v := eval vm_compute in (Z.of_nat (nat_of_ascii c) - 48) in
      change (Z.of_nat (nat_of_ascii c) - 48) with v
  end.

Lemma digits_acc d : forall p,
  digits 10 (NilEmpty.string_of_uint d) (Some (Z.pos p)) =
  Some (Z.pos (Pos.of_uint_acc d p)).
Proof.
  induction d; intros p; cbn [NilEmpty.string_of_uint Pos.of_uint_acc];
    [reflexivity | ..];
    (read_digit;
     match goal with
     | |- digits _ _ (Some ?a) = Some (Z.pos (Pos.of_uint_acc _ ?q)) =>
         replace a with (Z.pos q)
           by (rewrite ?Pos2Z.inj_add, ?Pos2Z.inj_mul; lia)
     end; apply IHd).
Qed.

Lemma digits_zero d :
  digits 10 (NilEmpty.string_of_uint d) (Some 0) =
  Some (Z.of_N (Pos.of_uint d)).
Proof.
  induction d; cbn [NilEmpty.string_of_uint Pos.of_uint];
    [reflexivity | ..]; read_digit;
    [exact IHd | ..]; apply digits_acc.
Qed.

Lemma digits_none d :
  d <> Decimal.Nil ->
  digits 10 (NilEmpty.string_of_uint d) None = Some (Z.of_N (Pos.of_uint d)).
Proof.
  destruct d; intros H; [contradiction | ..];
    cbn [NilEmpty.string_of_uint Pos.of_uint];
    read_digit;
    [apply digits_zero | ..]; apply digits_acc.
Qed.

Lemma trim_start_keeps c r :
  (N_of_ascii c <? 192)%N = true -> is_white (N_of_ascii c) = false ->
  trim_start (String c r) = String c r.
Proof. intros H1 H2. cbn [trim_start]. cbv zeta. now rewrite H1, H2. Qed.

Lemma parseInt_uint d :
  d <> Decimal.Nil ->
  parseInt (NilEmpty.string_of_uint d) = Fin (Z.of_N (Pos.of_uint d)) /\
  parseInt (String "-" (NilEmpty.string_of_uint d)) =
    Fin (- Z.of_N (Pos.of_uint d)).
Proof.
  intros H. pose proof (digits_none d H) as Hd.
  destruct d as [| d | d | d | d | d | d | d | d | d | d];
    [contradiction | destruct d | ..];
    unfold parseInt; cbn [NilEmpty.string_of_uint] in *;
    rewrite !trim_start_keeps by reflexivity;
    cbv beta iota zeta; rewrite Hd; split; f_equal; lia.
Qed.

Lemma parseInt_string_of_Z z : parseInt (string_of_Z z) = Fin z.
Proof.
  destruct z as [| p | p]; [reflexivity | ..]; unfold string_of_Z;
    cbn [Z.to_int NilZero.string_of_int];
    pose proof (Unsigned.to_uint_nonnil p) as Hn;
    pose proof (DecimalPos.Unsigned.of_to p) as Hp;
    destruct (parseInt_uint (Pos.to_uint p) Hn) as [H1 H2];
    unfold NilZero.string_of_uint;
    destruct (Pos.to_uint p) eqn:E; try contradiction;
    rewrite ?H1, ?H2, Hp; reflexivity.
Qed.

(** ** White space and what is no numeral *)

Lemma is_white_iff cp : is_white cp = true <-> In cp white_space.
Proof.
  split.
  - unfold is_white. intros H.
    repeat match type of H with
           | (_ || _) = true => apply orb_true_iff in H as [H | H]
           end;
      repeat match goal with
             | H : (_ && _) = true |- _ => apply andb_true_iff in H as [? ?]
             | H : (_ =? _)%N = true |- _ => apply N.eqb_eq in H; subst cp
             | H : (_ <=? _)%N = true |- _ => apply N.leb_le in H
             end;
      try (cbn; tauto).
    + assert (cp = 9 \/ cp = 10 \/ cp = 11 \/ cp = 12 \/ cp = 13)%N
        as Hc by lia.
      repeat (destruct Hc as [-> | Hc]); subst; cbn; tauto.
    + assert (cp = 8192 \/ cp = 8193 \/ cp = 8194 \/ cp = 8195 \/ cp = 8196
              \/ cp = 8197 \/ cp = 8198 \/ cp = 8199 \/ cp = 8200
              \/ cp = 8201 \/ cp = 8202)%N as Hc by lia.
      repeat (destruct Hc as [-> | Hc]); subst; cbn; tauto.
  - intros H. repeat (destruct H as [<- | H]; [reflexivity|]).
    contradiction.
Qed.

Lemma trim_start_utf8 cp s :
  In cp white_space -> trim_start (utf8 cp ++ s) = trim_start s.
Proof.
  intros H. repeat (destruct H as [<- | H]; [reflexivity|]). contradiction.
Qed.

Lemma utf8_string_app cp ws s :
  (utf8_string (cp :: ws) ++ s =
   utf8 cp ++ (utf8_string ws ++ s))%string.
Proof.
  cbn [utf8_string]. generalize (utf8 cp) as a. intros a.
  induction a as [| c a IH]; [reflexivity|]. cbn. now rewrite IH.
Qed.

Lemma parseInt_skips_white ws s :
  Forall (fun cp => In cp white_space) ws ->
  parseInt (utf8_string ws ++ s) = parseInt s.
Proof.
  intros H.
  assert (trim_start (utf8_string ws ++ s) = trim_start s) as Ht.
  { induction H as [| cp ws Hcp _ IH]; [reflexivity|].
    now rewrite utf8_string_app, trim_start_utf8. }
  unfold parseInt. now rewrite Ht.
Qed.

Lemma parseInt_not_numeric s : not_numeric s = true -> parseInt s = NaN.
Proof.
  unfold not_numeric, parseInt.
  destruct (trim_start s) as [| c r]; [reflexivity|].
  destruct c as [[] [] [] [] [] [] [] []]; cbn; intros H;
    try discriminate H; try reflexivity;
    (destruct r as [| c2 r2]; [reflexivity|];
     destruct c2 as [[] [] [] [] [] [] [] []]; cbn in H |- *;
     try discriminate H; reflexivity).
Qed.

(** ** Identifiers are handed out in sequence *)

Lemma in_ids_upto n m :
  In (Fin m) (ids_upto n) <-> 1 <= m <= Z.of_nat n.
Proof.
  unfold ids_upto. rewrite in_map_iff. split.
  - intros (i & Hi & Hin). apply in_seq in Hin. injection Hi as <-. lia.
  - intros H. exists (Z.to_nat m). split; [f_equal; lia|].
    apply in_seq. lia.
Qed.

Lemma ids_upto_finite n : Forall finite (ids_upto n).
Proof.
  unfold ids_upto. apply Forall_forall. intros x Hx.
  apply in_map_iff in Hx as (i & <- & _). now eexists.
Qed.

Lemma Math_max_ids_upto n :
  (0 < n)%nat -> Math_max (ids_upto n) = Fin (Z.of_nat n).
Proof.
  intros Hn.
  destruct (Math_max_Fin (ids_upto n) (ids_upto_finite n))
    as (m & Hm & Hin & Hub).
  { destruct n; [lia | discriminate]. }
  rewrite Hm. f_equal. apply in_ids_upto in Hin.
  assert (Z.of_nat n <= m); [|lia].
  apply Hub. apply in_ids_upto. lia.
Qed.

Lemma ids_upto_S n :
  ids_upto (S n) = ids_upto n ++ [Fin (Z.of_nat n + 1)].
Proof.
  unfold ids_upto. rewrite seq_S, map_app. cbn [map]. do 3 f_equal. lia.
Qed.

Lemma reachable_ids us :
  reachable us -> map User.id us = ids_upto (length us).
Proof.
  induction 1 as [| us e req d Hre IH]; [reflexivity|].
  destruct (router_run e req d us) as (res & us' & t & Hr & _ & Hus).
  rewrite (app_run _ _ _ _ _ _ _ Hr). cbn [store fst snd].
  destruct Hus as [-> | [_ ->]]; [exact IH|].
  rewrite map_app, length_app, Nat.add_1_r, ids_upto_S.
  cbn [map new_user User.id].
  f_equal; [exact IH|].
  rewrite IH, Math_max_ids_upto; [reflexivity|].
  destruct (reachable_well_formed us Hre) as (Hne & _).
  destruct us; [contradiction | cbn; lia].
Qed.

(** ** Looking a user up *)

Lemma find_by_id us n u :
  NoDup (map User.id us) -> In u us -> User.id u = n -> finite n ->
  find (fun v => strict_eq (User.id v) n) us = Some u.
Proof.
  intros Hnd Hin Hid [z ->].
  induction us as [| v us IH]; [contradiction|].
  cbn in *. inversion Hnd as [| ? ? Hnotin Hnd']; subst.
  destruct Hin as [-> | Hin].
  - now rewrite Hid, strict_eq_Fin.
  - destruct (strict_eq (User.id v) (Fin z)) eqn:Hv.
    + apply strict_eq_true in Hv. exfalso. apply Hnotin.
      rewrite Hv, <- Hid. now apply in_map.
    + now apply IH.
Qed.

Lemma find_by_id_none us n :
  (n = NaN \/ forall u, In u us -> User.id u <> n) ->
  find (fun v => strict_eq (User.id v) n) us = None.
Proof.
  intros H. induction us as [| v us IH]; [reflexivity|].
  cbn. destruct (strict_eq (User.id v) n) eqn:Hv.
  - exfalso. destruct H as [-> | H].
    + destruct (User.id v); discriminate.
    + apply strict_eq_true in Hv. apply (H v); [now left | exact Hv].
  - apply IH. destruct H as [H | H]; [now left | right].
    intros u Hu. apply H. now right.
Qed.

Lemma user_handler_run id_param e req us :
  exists t,
    router e req (Matched (UserById id_param)) us =
    (Normal
       match find (fun v => strict_eq (User.id v) (parseInt id_param)) us with
       | Some u => json 200 (VObj [("user", user_value u);
                                   ("timestamp", VStr (iso_now e))])
       | None => json 404 (VObj [("error", VStr "User not found")])
       end, us, t).
Proof.
  run_monad. destruct (active_span e); cbn;
    match goal with |- context [find ?f us] => destruct (find f us) end;
    cbn; eexists; reflexivity.
Qed.

Lemma reachable_id_range us u :
  reachable us -> In u us ->
  exists i, User.id u = Fin i /\ 1 <= i <= Z.of_nat (length us).
Proof.
  intros Hre Hin. apply (in_map User.id) in Hin.
  rewrite (reachable_ids us Hre) in Hin.
  destruct (User.id u) as [| | | i];
    try (apply in_map_iff in Hin as (k & Hk & _); discriminate Hk).
  exists i. split; [reflexivity|]. now apply in_ids_upto.
Qed.

(** ** Integers and doubles *)

Lemma nearest_double_small z :
  Z.abs z < 2 ^ 53 -> nearest_double z = Fin z.
Proof.
  intros H. unfold nearest_double.
  assert (Z.log2 (Z.abs z) - 52 <= 0) as He.
  { destruct (Z.eq_dec (Z.abs z) 0) as [-> | Hn]; [cbn; lia|].
    assert (Z.log2 (Z.abs z) < 53); [|lia].
    apply Z.log2_lt_pow2; lia. }
  apply Z.leb_le in He. now rewrite He.
Qed.

Lemma nearest_double_large z :
  2 ^ 53 <= Z.abs z ->
  nearest_double z = PosInf \/ nearest_double z = NegInf \/
  exists m, nearest_double z = Fin m /\ 2 ^ 53 <= Z.abs m.
Proof.
  intros H. unfold nearest_double.
  set (a := Z.abs z) in *. set (e := Z.log2 a - 52).
  assert (0 < a) as Ha by (change (2 ^ 53) with 9007199254740992 in H; lia).
  assert (53 <= Z.log2 a) as Hl by (apply Z.log2_le_pow2; lia).
  assert (1 <= e) as He by (unfold e; lia).
  destruct (e <=? 0) eqn:E; [apply Z.leb_le in E; lia|].
  cbv zeta.
  set (q := a / 2 ^ e).
  match goal with
  | |- context [if ?c then q + 1 else q] =>
      set (q' := if c then q + 1 else q)
  end.
  destruct (2 ^ 1024 <=? q' * 2 ^ e); [destruct (z <? 0); auto|].
  right. right. eexists. split; [reflexivity|].
  assert (0 < 2 ^ e) as Hp by (apply Z.pow_pos_nonneg; lia).
  assert (2 ^ 52 <= q) as Hq.
  { apply Z.div_le_lower_bound; [exact Hp|].
    rewrite <- Z.pow_add_r by lia.
    replace (e + 52) with (Z.log2 a) by (unfold e; lia).
    apply Z.log2_spec. exact Ha. }
  assert (q <= q') as Hq'.
  { unfold q'. match goal with |- context [if ?c then _ else _] =>
      destruct c end; lia. }
  assert (2 <= 2 ^ e) as H2.
  { change 2 with (2 ^ 1) at 1. apply Z.pow_le_mono_r; lia. }
  assert (2 ^ 53 <= q' * 2 ^ e) as Hm.
  { change (2 ^ 53) with (2 ^ 52 * 2). apply Z.mul_le_mono_nonneg; lia. }
  rewrite Z.abs_mul.
  assert (Z.abs (Z.sgn z) = 1) as -> by (unfold a in Ha; lia).
  lia.
Qed.

(** Looking up the double nearest to an integer finds what looking up the
    integer finds, as long as there are fewer than 2^53 users. *)
Lemma find_to_double us n :
  reachable us -> Z.of_nat (length us) < 2 ^ 53 ->
  find (fun v => strict_eq (User.id v) (to_double n)) us =
  find (fun v => strict_eq (User.id v) n) us.
Proof.
  intros Hre Hn. destruct n as [| | | z]; try reflexivity. cbn [to_double].
  destruct (Z_lt_le_dec (Z.abs z) (2 ^ 53)) as [Hs | Hl];
    [now rewrite nearest_double_small|].
  rewrite (find_by_id_none us (Fin z)).
  - apply find_by_id_none. right. intros u Hu Hid.
    destruct (reachable_id_range us u Hre Hu) as (i & Hi & Hr).
    rewrite Hi in Hid.
    destruct (nearest_double_large z Hl) as [H | [H | (m & H & Hm)]];
      rewrite H in Hid; try discriminate Hid.
    injection Hid as ->. lia.
  - right. intros u Hu Hid.
    destruct (reachable_id_range us u Hre Hu) as (i & Hi & Hr).
    rewrite Hi in Hid. injection Hid as ->. lia.
Qed.

(** C1. [GET /api/users/:id]: when a stored user has the identifier that
    [parseInt] reads in the path parameter, the reply is 200 with
    [{user, timestamp}] holding exactly that user; when no stored user has
    it, or the parameter is not numeric ([parseInt] gives NaN), the reply is
    404 with [{error: "User not found"}].  The array is left as it was.
    As to what [parseInt] reads: a parameter that, after white space and a
    sign, does not start with a digit is not numeric; and the decimal
    numeral of an identifier, also after white space (U+00A0 and the other
    white space of the language included), is read as that identifier.
    The integer that [parseInt] reads stands for the double the code
    holds: while there are fewer than 2^53 users, looking up the one finds
    what looking up the other finds. *)
Theorem get_user_by_id_spec us e req id_param :
  reachable us ->
  let reply := app e req (Matched (UserById id_param)) us in
  (forall u, In u us -> User.id u = parseInt id_param ->
     outcome reply =
     Normal (json 200 (VObj [("user", user_value u);
                             ("timestamp", VStr (iso_now e))]))) /\
  ((parseInt id_param = NaN \/
    forall u, In u us -> User.id u <> parseInt id_param) ->
     outcome reply =
     Normal (json 404 (VObj [("error", VStr "User not found")]))) /\
  store reply = us /\
  (not_numeric id_param = true ->
     outcome reply =
     Normal (json 404 (VObj [("error", VStr "User not found")]))) /\
  (forall u z blanks,
     In u us -> User.id u = Fin z ->
     Forall (fun cp => In cp white_space) blanks ->
     outcome (app e req
                (Matched (UserById (utf8_string blanks ++ string_of_Z z)))
                us) =
     Normal (json 200 (VObj [("user", user_value u);
                             ("timestamp", VStr (iso_now e))]))) /\
  (Z.of_nat (length us) < 2 ^ 53 ->
   find (fun v => strict_eq (User.id v) (to_double (parseInt id_param))) us =
   find (fun v => strict_eq (User.id v) (parseInt id_param)) us).
Proof.
  intros Hre reply.
  destruct (reachable_well_formed us Hre) as (_ & Hfin & Hnd).
  destruct (user_handler_run id_param e req us) as [t Hr].
  subst reply. rewrite (app_run _ _ _ _ _ _ _ Hr). cbn.
  repeat split.
  - intros u Hin Hid.
    rewrite (find_by_id us (parseInt id_param) u); auto.
    rewrite <- Hid. rewrite Forall_forall in Hfin.
    apply Hfin. now apply in_map.
  - intros H. now rewrite find_by_id_none.
  - intros H. rewrite find_by_id_none; [reflexivity | left].
    now apply parseInt_not_numeric.
  - intros u z blanks Hin Hid Hb.
    destruct (user_handler_run (utf8_string blanks ++ string_of_Z z)
                e req us) as [t' Hr'].
    rewrite (app_run _ _ _ _ _ _ _ Hr'). cbn [outcome fst].
    rewrite (parseInt_skips_white _ _ Hb), parseInt_string_of_Z.
    rewrite (find_by_id us (Fin z) u); auto. now eexists.
  - intros Hn. now apply find_to_double.
Qed.

Lemma get_user_by_id_spec_witness :
  outcome (app sample_env (sample_request "GET" "/api/users/2" (VObj []))
               (Matched (UserById "2")) users) =
  Normal (json 200
            (VObj [("user",
                    VObj [("id", VNum (Fin 2)); ("name", VStr "Bob Smith");
                          ("email", VStr "bob@example.com");
                          ("role", VStr "user")]);
                   ("timestamp", VStr "2024-01-01T00:00:00.000Z")])).
Proof.
  apply (proj1 (get_user_by_id_spec users sample_env
                  (sample_request "GET" "/api/users/2" (VObj [])) "2"
                  reachable_start)
               {| User.id := Fin 2; User.name := VStr "Bob Smith";
                  User.email := VStr "bob@example.com";
                  User.role := VStr "user" |}).
  - cbn. auto.
  - reflexivity.
Defined.

(** ** Creating a user *)


Lemma truthy_prop_not_nullish body k :
  truthy (prop body k) = true -> nullish body = false.
Proof. destruct body; cbn; auto; discriminate. Qed.

Lemma create_handler_created e req us :
  truthy (prop (req_body req) "name") = true ->
  truthy (prop (req_body req) "email") = true ->
  exists t,
    create_handler e req us =
    (Normal (json 201 (VObj [("user", user_value (new_user us (req_body req)));
                             ("timestamp", VStr (iso_now e))])),
     us ++ [new_user us (req_body req)], t).
Proof.
  intros Hn He. run_monad.
  rewrite (truthy_prop_not_nullish _ _ Hn), Hn, He.
  destruct (active_span e); cbn; eexists; reflexivity.
Qed.

Lemma create_handler_rejected e req us :
  nullish (req_body req) = false ->
  truthy (prop (req_body req) "name") = false \/
  truthy (prop (req_body req) "email") = false ->
  exists t,
    create_handler e req us =
    (Normal (json 400 (VObj [("error", VStr "Name and email are required")])),
     us, t).
Proof.
  intros Hb H. run_monad. rewrite Hb.
  assert (negb (truthy (prop (req_body req) "name"))
          || negb (truthy (prop (req_body req) "email")) = true) as ->.
  { destruct H as [-> | ->]; cbn; [reflexivity | apply orb_true_r]. }
  destruct (active_span e); cbn; eexists; reflexivity.
Qed.

Lemma router_of_handler ep e req us res us' t :
  handler ep e req us = (Normal res, us', t) ->
  router e req (Matched ep) us = (Normal res, us', t).
Proof. intros H. unfold router, try_catch. now rewrite H. Qed.

(** C2. [POST /api/users] with a truthy [name] and [email]: the reply is
    201 with [{user, timestamp}]; the user's role is the one supplied, or
    ["user"] when the body has none; its identifier is
    [Math.max(...ids) + 1], which on the array of a running application is
    one more than the greatest identifier present; and that user is
    appended to the array. *)
Theorem create_user_spec us e req :
  truthy (prop (req_body req) "name") = true ->
  truthy (prop (req_body req) "email") = true ->
  let reply := app e req (Matched CreateUser) us in
  let created := new_user us (req_body req) in
  outcome reply =
    Normal (json 201 (VObj [("user", user_value created);
                            ("timestamp", VStr (iso_now e))])) /\
  store reply = us ++ [created] /\
  User.name created = prop (req_body req) "name" /\
  User.email created = prop (req_body req) "email" /\
  (prop (req_body req) "role" = VUndefined ->
     User.role created = VStr "user") /\
  (prop (req_body req) "role" <> VUndefined ->
     User.role created = prop (req_body req) "role") /\
  User.id created = add (Math_max (map User.id us)) (Fin 1) /\
  (reachable us ->
     exists m, In (Fin m) (map User.id us) /\
               (forall z, In (Fin z) (map User.id us) -> z <= m) /\
               User.id created = Fin (m + 1)).
Proof.
  intros Hn He reply created.
  destruct (create_handler_created e req us Hn He) as [t Hr].
  apply (router_of_handler CreateUser) in Hr.
  subst reply. rewrite (app_run _ _ _ _ _ _ _ Hr). cbn.
  repeat split.
  - now intros ->.
  - intros H. destruct (prop (req_body req) "role"); auto. contradiction.
  - intros Hre.
    destruct (reachable_well_formed us Hre) as (Hne & Hfin & _).
    destruct (Math_max_Fin _ Hfin) as (m & Hm & Hin & Hub).
    { destruct us; [contradiction | discriminate]. }
    exists m. repeat split; auto. now rewrite Hm.
Qed.

Lemma create_user_spec_witness :
  outcome (app sample_env (sample_request "POST" "/api/users" sample_body)
               (Matched CreateUser) users) =
  Normal (json 201
            (VObj [("user",
                    VObj [("id", VNum (Fin 5)); ("name", VStr "X");
                          ("email", VStr "y@z.com"); ("role", VStr "user")]);
                   ("timestamp", VStr "2024-01-01T00:00:00.000Z")])).
Proof.
  apply (proj1 (create_user_spec users sample_env
                  (sample_request "POST" "/api/users" sample_body)
                  eq_refl eq_refl)).
Defined.

(** C3. [POST /api/users] with a body whose [name] or [email] is missing or
    falsy: the reply is 400 with [{error: "Name and email are required"}]
    and the array is unchanged.  ([req.body] is an object, as the JSON body
    parser leaves it.) *)
Theorem create_user_missing_fields us e req :
  nullish (req_body req) = false ->
  truthy (prop (req_body req) "name") = false \/
  truthy (prop (req_body req) "email") = false ->
  let reply := app e req (Matched CreateUser) us in
  outcome reply =
    Normal (json 400 (VObj [("error", VStr "Name and email are required")])) /\
  store reply = us.
Proof.
  intros Hb H reply.
  destruct (create_handler_rejected e req us Hb H) as [t Hr].
  apply (router_of_handler CreateUser) in Hr.
  subst reply. rewrite (app_run _ _ _ _ _ _ _ Hr). now cbn.
Qed.

Lemma create_user_missing_fields_witness :
  outcome (app sample_env
               (sample_request "POST" "/api/users"
                  (VObj [("name", VStr ""); ("email", VStr "y@z.com")]))
               (Matched CreateUser) users) =
    Normal (json 400 (VObj [("error", VStr "Name and email are required")])) /\
  store (app sample_env
             (sample_request "POST" "/api/users"
                (VObj [("name", VStr ""); ("email", VStr "y@z.com")]))
             (Matched CreateUser) users) = users.
Proof.
  apply (create_user_missing_fields users sample_env
           (sample_request "POST" "/api/users"
              (VObj [("name", VStr ""); ("email", VStr "y@z.com")]))
           eq_refl (or_introl eq_refl)).
Defined.

(** ** Identifiers on an empty array *)

(** C9, as the claim has it, fails: on an empty array the handler raises no
    error.  [Math.max()] of no argument is [-Infinity], the new identifier
    is [-Infinity + 1 = -Infinity], and the request is answered 201. *)
Lemma create_on_empty_does_not_throw :
  outcome (create_handler sample_env
             (sample_request "POST" "/api/users" sample_body) []) =
    Normal (json 201
              (VObj [("user",
                      VObj [("id", VNum NegInf); ("name", VStr "X");
                            ("email", VStr "y@z.com");
                            ("role", VStr "user")]);
                     ("timestamp", VStr "2024-01-01T00:00:00.000Z")])) /\
  ~ (exists err,
       outcome (create_handler sample_env
                  (sample_request "POST" "/api/users" sample_body) []) =
       Thrown err).
Proof.
  split; [reflexivity|]. intros [err H]. discriminate H.
Qed.

(** C9, amended.  When the array is empty, [Math.max] of no argument is
    [-Infinity] and so is the identifier [Math.max(...ids) + 1]; the handler
    raises no error: it answers 201 and the array then holds that one user,
    whose identifier is [-Infinity]. *)
Theorem create_user_on_empty_store e req :
  truthy (prop (req_body req) "name") = true ->
  truthy (prop (req_body req) "email") = true ->
  let created :=
    {| User.id := NegInf;
       User.name := prop (req_body req) "name";
       User.email := prop (req_body req) "email";
       User.role := default_to (VStr "user") (prop (req_body req) "role") |} in
  add (Math_max (map User.id [])) (Fin 1) = NegInf /\
  outcome (create_handler e req []) =
    Normal (json 201 (VObj [("user", user_value created);
                            ("timestamp", VStr (iso_now e))])) /\
  store (create_handler e req []) = [created] /\
  (forall err, outcome (create_handler e req []) <> Thrown err).
Proof.
  intros Hn He created.
  destruct (create_handler_created e req [] Hn He) as [t Hr].
  rewrite Hr. cbn. repeat split. intros err H. discriminate H.
Qed.

Lemma create_user_on_empty_store_witness :
  store (create_handler sample_env
           (sample_request "POST" "/api/users" sample_body) []) =
  [{| User.id := NegInf; User.name := VStr "X";
      User.email := VStr "y@z.com"; User.role := VStr "user" |}].
Proof.
  apply (proj1 (proj2 (proj2 (create_user_on_empty_store sample_env
           (sample_request "POST" "/api/users" sample_body)
           eq_refl eq_refl)))).
Defined.

(** ** The array across requests *)

(** C10. Every array a running application can hold is non-empty and has
    pairwise distinct identifiers.  It starts as the four sample users,
    numbered 1 to 4; a request leaves it as it was or appends one user, the
    created one, whose identifier is one more than the greatest present and
    so above every one present; nothing is removed or modified. *)
Theorem users_invariant us :
  reachable us ->
  map User.id users = [Fin 1; Fin 2; Fin 3; Fin 4] /\
  us <> [] /\
  NoDup (map User.id us) /\
  (exists added, us = users ++ added) /\
  (forall e req d,
     store (app e req d us) = us \/
     exists u m,
       d = Matched CreateUser /\
       store (app e req d us) = us ++ [u] /\
       Math_max (map User.id us) = Fin m /\
       User.id u = Fin (m + 1) /\
       (forall v, In v us -> exists z, User.id v = Fin z /\ z < m + 1)).
Proof.
  intros Hre. split; [reflexivity|].
  destruct (reachable_well_formed us Hre) as (Hne & Hfin & Hnd).
  repeat split; auto.
  - clear Hne Hfin Hnd. induction Hre as [| us e req d _ [added ->]].
    + exists []. now rewrite app_nil_r.
    + destruct (router_run e req d (users ++ added))
        as (res & us' & t & Hr & _ & Hus).
      rewrite (app_run _ _ _ _ _ _ _ Hr). cbn.
      destruct Hus as [-> | [_ ->]]; [now exists added|].
      rewrite <- app_assoc. eexists. reflexivity.
  - intros e req d.
    destruct (router_run e req d us) as (res & us' & t & Hr & _ & Hus).
    rewrite (app_run _ _ _ _ _ _ _ Hr). cbn.
    destruct Hus as [-> | [-> ->]]; [now left | right].
    destruct (Math_max_Fin _ Hfin) as (m & Hm & Hin & Hub).
    { destruct us; [contradiction | discriminate]. }
    eexists. exists m. repeat split; auto.
    + cbn. now rewrite Hm.
    + intros v Hv. rewrite Forall_forall in Hfin.
      destruct (Hfin (User.id v)) as [z Hz]; [now apply in_map|].
      exists z. split; [exact Hz|].
      assert (z <= m); [|lia]. apply Hub. rewrite <- Hz. now apply in_map.
Qed.

Lemma users_invariant_witness :
  users <> [] /\ NoDup (map User.id users).
Proof.
  split.
  - apply (proj1 (proj2 (users_invariant users reachable_start))).
  - apply (proj1 (proj2 (proj2 (users_invariant users reachable_start)))).
Defined.

(** ** Listing the users *)

Lemma users_handler_run e req us :
  exists t,
    router e req (Matched UsersList) us =
    (Normal (json 200 (VObj [("users", VArr (map user_value us));
                             ("total", length_of us);
                             ("timestamp", VStr (iso_now e))])), us, t).
Proof.
  run_monad. destruct (active_span e); cbn; eexists; reflexivity.
Qed.

Lemma app_keeps_store e req d us :
  d <> Matched CreateUser -> store (app e req d us) = us.
Proof.
  intros Hd.
  destruct (router_run e req d us) as (res & us' & t & Hr & _ & Hus).
  rewrite (app_run _ _ _ _ _ _ _ Hr). cbn.
  destruct Hus as [-> | [-> _]]; [reflexivity | contradiction].
Qed.

Lemma run_keeps_store rs : forall us,
  forallb (fun r => negb (is_post_users r)) rs = true -> run rs us = us.
Proof.
  induction rs as [| [[e req] d] rs IH]; intros us H; [reflexivity|].
  cbn in H. apply andb_true_iff in H as [Hd Hrs].
  unfold run in *. cbn. rewrite app_keeps_store; [now apply IH|].
  intros ->. discriminate Hd.
Qed.

(** C8. [GET /api/users] leaves the array as it was, its [total] is the
    number of users it returns, and a second [GET /api/users], after any
    requests none of which is [POST /api/users], returns the same content
    but for [timestamp]. *)
Theorem get_users_idempotent us e1 req1 between e2 req2 :
  forallb (fun r => negb (is_post_users r)) between = true ->
  let first := app e1 req1 (Matched UsersList) us in
  let second :=
    app e2 req2 (Matched UsersList) (run between (store first)) in
  let listing := map user_value us in
  store first = us /\
  outcome first =
    Normal (json 200 (VObj [("users", VArr listing);
                            ("total", VNum (Fin (Z.of_nat (length listing))));
                            ("timestamp", VStr (iso_now e1))])) /\
  outcome second =
    Normal (json 200 (VObj [("users", VArr listing);
                            ("total", VNum (Fin (Z.of_nat (length listing))));
                            ("timestamp", VStr (iso_now e2))])) /\
  store second = us.
Proof.
  intros Hb first second listing.
  assert (Hfirst : store first = us).
  { apply app_keeps_store. discriminate. }
  subst second. rewrite Hfirst, (run_keeps_store _ _ Hb).
  subst first listing. rewrite length_map.
  destruct (users_handler_run e1 req1 us) as [t1 H1].
  destruct (users_handler_run e2 req2 us) as [t2 H2].
  rewrite (app_run _ _ _ _ _ _ _ H1), (app_run _ _ _ _ _ _ _ H2).
  cbn. auto.
Qed.

Lemma get_users_idempotent_witness :
  store (app sample_env (sample_request "GET" "/api/users" (VObj []))
             (Matched UsersList) users) = users.
Proof.
  apply (proj1 (get_users_idempotent users
                  sample_env (sample_request "GET" "/api/users" (VObj []))
                  [(sample_env, sample_request "GET" "/api/users/2" (VObj []),
                    Matched (UserById "2"));
                   (sample_env, sample_request "GET" "/nowhere" (VObj []),
                    Unmatched 404)]
                  sample_env (sample_request "GET" "/api/users" (VObj []))
                  eq_refl)).
Defined.

(** ** The slow endpoint *)

Lemma pow2_pos k : (0 < pow2 k)%Q.
Proof.
  unfold pow2. destruct (0 <=? k) eqn:E.
  - apply Z.leb_le in E. rewrite <- (Zlt_Qlt 0). now apply Z.pow_pos_nonneg.
  - apply Z.leb_gt in E. apply Qinv_lt_0_compat. rewrite <- (Zlt_Qlt 0).
    apply Z.pow_pos_nonneg; lia.
Qed.

Lemma pow2_le k : k <= -41 -> (pow2 k <= 1 # 2199023255552)%Q.
Proof.
  intros H. unfold pow2. destruct (0 <=? k) eqn:E; [apply Z.leb_le in E; lia|].
  assert (2 ^ 41 <= 2 ^ (- k)) as Hp by (apply Z.pow_le_mono_r; lia).
  change (2 ^ 41) with 2199023255552 in Hp.
  destruct (2 ^ (- k)) as [| p | p] eqn:Ep; try lia.
  unfold Qinv, Qle. cbn. lia.
Qed.

Lemma round_half_even_le y :
  (inject_Z (round_half_even y) <= y + (1 # 2))%Q.
Proof.
  unfold round_half_even.
  pose proof (Qfloor_le y) as Hf. set (f := Qfloor y) in *.
  assert (inject_Z (f + 1) == inject_Z f + 1)%Q as H1
    by (rewrite inject_Z_plus; reflexivity).
  destruct (Qcompare_spec (y - inject_Z f) (1 # 2)) as [H | H | H];
    [destruct (Z.even f) | |]; rewrite ?H1; lra.
Qed.

Lemma round_half_even_nonneg y : (0 <= y)%Q -> 0 <= round_half_even y.
Proof.
  intros Hy. unfold round_half_even.
  assert (0 <= Qfloor y) as Hf.
  { rewrite <- (Qfloor_Z 0). now apply Qfloor_resp_le. }
  destruct (y - inject_Z (Qfloor y) ?= 1 # 2)%Q;
    [destruct (Z.even (Qfloor y)) | |]; lia.
Qed.

Lemma Qabs_nonneg_eq x : (0 <= x)%Q -> Qabs x = x.
Proof.
  destruct x as [n d]. unfold Qle. cbn. intros H.
  f_equal. apply Z.abs_eq. lia.
Qed.

Lemma exponent_le x : (0 < x)%Q -> (x < 4096)%Q -> exponent x <= 11.
Proof.
  intros H0 H1. unfold exponent. destruct (Qle_bool 1 x) eqn:E.
  - apply Qle_bool_iff in E.
    assert (1 <= Qfloor x) as Hlo.
    { rewrite <- (Qfloor_Z 1). now apply Qfloor_resp_le. }
    assert (Qfloor x < 2 ^ 12) as Hhi.
    { rewrite Zlt_Qlt. eapply Qle_lt_trans; [apply Qfloor_le | exact H1]. }
    apply Z.log2_lt_pow2 in Hhi; lia.
  - pose proof (Z.log2_up_nonneg (Qceiling (/ x))). lia.
Qed.

(** What [round_double] does to a positive rational. *)
Lemma round_double_pos x :
  (0 < x)%Q ->
  round_double x =
  (inject_Z (round_half_even
               (x / pow2 (Z.max (exponent x) (-1022) - 52)))
   * pow2 (Z.max (exponent x) (-1022) - 52))%Q.
Proof.
  intros H. unfold round_double.
  rewrite (Qabs_nonneg_eq x) by lra.
  destruct (Qle_bool x 0) eqn:E; [apply Qle_bool_iff in E; lra|].
  destruct (Qle_bool 0 x) eqn:E0; [reflexivity|].
  assert (Qle_bool 0 x = true) by (apply Qle_bool_iff; lra). congruence.
Qed.

Lemma round_double_0 x : (x == 0)%Q -> round_double x = 0%Q.
Proof.
  intros H. unfold round_double.
  assert (Qle_bool (Qabs x) 0 = true) as ->; [|reflexivity].
  apply Qle_bool_iff. rewrite H. cbn. lra.
Qed.

Lemma round_double_nonneg x : (0 <= x)%Q -> (0 <= round_double x)%Q.
Proof.
  intros H. destruct (Qlt_le_dec 0 x) as [Hp | Hz].
  - rewrite (round_double_pos x Hp).
    pose proof (pow2_pos (Z.max (exponent x) (-1022) - 52)) as Hu.
    apply Qmult_le_0_compat; [|lra].
    rewrite <- (Zle_Qle 0). apply round_half_even_nonneg.
    apply Qle_shift_div_l; lra.
  - rewrite round_double_0; lra.
Qed.

(** Rounding overshoots by half a unit in the last place at most. *)
Lemma round_double_near x :
  (0 < x)%Q -> (x < 4096)%Q ->
  (round_double x <= x + (1 # 4398046511104))%Q.
Proof.
  intros H0 H1. rewrite (round_double_pos x H0).
  pose proof (exponent_le x H0 H1) as Hk.
  set (u := pow2 (Z.max (exponent x) (-1022) - 52)).
  assert (0 < u)%Q as Hu by apply pow2_pos.
  assert (u <= 1 # 2199023255552)%Q as Hle by (apply pow2_le; lia).
  pose proof (round_half_even_le (x / u)) as Hr.
  apply (Qmult_le_compat_r _ _ u) in Hr; [|lra].
  assert ((x / u + (1 # 2)) * u == x + (1 # 2) * u)%Q as Heq
    by (field; lra).
  rewrite Heq in Hr. lra.
Qed.

Lemma round_double_below_3000 x :
  (0 <= x)%Q -> (x <= 3000 - (3000 # 9007199254740992))%Q ->
  (round_double x < 3000)%Q.
Proof.
  intros H0 H1. destruct (Qlt_le_dec 0 x) as [Hp | Hz].
  - pose proof (round_double_near x Hp ltac:(lra)). lra.
  - rewrite round_double_0; lra.
Qed.

(** The doubles below 1 stop at [1 - 2^-53]. *)
Lemma double_below_1 r :
  is_double r = true -> (0 <= r)%Q -> (r < 1)%Q ->
  (r <= 1 - (1 # 9007199254740992))%Q.
Proof.
  intros Hd H0 H1.
  destruct (Qlt_le_dec r (1 # 2)) as [Hs | Hb]; [lra|].
  unfold is_double in Hd. apply Qeq_bool_iff in Hd.
  rewrite (round_double_pos r) in Hd by lra.
  assert (exponent r = -1) as Hk.
  { unfold exponent.
    destruct (Qle_bool 1 r) eqn:E; [apply Qle_bool_iff in E; lra|].
    assert (Qceiling (/ r) = 2) as ->; [|reflexivity].
    assert (1 < / r)%Q as Hlo.
    { apply Qlt_shift_inv_l; lra. }
    assert (/ r <= 2)%Q as Hhi.
    { apply Qle_shift_inv_r; lra. }
    pose proof (Qle_ceiling (/ r)) as Hc1.
    pose proof (Qceiling_lt (/ r)) as Hc2.
    assert (1 < Qceiling (/ r))
      by (rewrite Zlt_Qlt; change (inject_Z 1) with 1%Q; lra).
    assert (Qceiling (/ r) - 1 < 2)
      by (rewrite Zlt_Qlt; change (inject_Z 2) with 2%Q; lra).
    lia. }
  rewrite Hk in Hd. change (pow2 (Z.max (-1) (-1022) - 52))
    with (/ inject_Z 9007199254740992)%Q in Hd.
  set (N := round_half_even (r / / inject_Z 9007199254740992)) in *.
  assert (N < 9007199254740992) as HN.
  { rewrite Zlt_Qlt.
    assert (inject_Z N == r * inject_Z 9007199254740992)%Q as ->.
    { rewrite <- Hd. field. }
    change (inject_Z 9007199254740992) with (9007199254740992 # 1)%Q.
    lra. }
  assert (inject_Z N <= inject_Z 9007199254740991)%Q as HN'
    by (rewrite <- Zle_Qle; lia).
  rewrite <- Hd.
  change (/ inject_Z 9007199254740992)%Q with (1 # 9007199254740992)%Q.
  change (inject_Z 9007199254740991) with (9007199254740991 # 1)%Q in HN'.
  lra.
Qed.

Lemma delay_range (r : Q) :
  is_double r = true -> (0 <= r)%Q -> (r < 1)%Q ->
  1000 <= Qfloor (mul r 3000) + 1000 < 4000.
Proof.
  intros Hd H0 H1.
  pose proof (double_below_1 r Hd H0 H1) as Hr.
  assert (0 <= r * 3000)%Q as Hx0 by lra.
  assert (r * 3000 <= 3000 - (3000 # 9007199254740992))%Q as Hx1 by lra.
  pose proof (round_double_nonneg _ Hx0) as Hlo.
  pose proof (round_double_below_3000 _ Hx0 Hx1) as Hhi.
  unfold mul.
  assert (0 <= Qfloor (round_double (r * 3000))).
  { rewrite <- (Qfloor_Z 0). now apply Qfloor_resp_le. }
  assert (Qfloor (round_double (r * 3000)) < 3000).
  { rewrite Zlt_Qlt. eapply Qle_lt_trans; [apply Qfloor_le | exact Hhi]. }
  lia.
Qed.

(** C7. [GET /api/slow]: [Math.random()] being a double in [[0, 1)], the
    delay [Math.floor(Math.random() * 3000) + 1000], the product rounded as
    the multiplication of doubles rounds it, is a whole number of
    milliseconds in [[1000, 4000)]; the handler awaits one timer, of that
    delay, as the last thing it does before it responds; and the 200 reply
    carries that delay in its [delay] field. *)
Theorem slow_spec e req us :
  is_double (random e) = true ->
  (0 <= random e)%Q -> (random e < 1)%Q ->
  let delay := Qfloor (mul (random e) 3000) + 1000 in
  1000 <= delay < 4000 /\
  outcome (app e req (Matched Slow) us) =
    Normal (json 200 (VObj [("message", VStr "This was intentionally slow");
                            ("delay", VNum (Fin delay));
                            ("timestamp", VStr (iso_now e))])) /\
  (exists before,
     trace (router e req (Matched Slow) us) = before ++ [SetTimeout delay] /\
     filter is_timer before = []) /\
  filter is_timer (trace (app e req (Matched Slow) us)) = [SetTimeout delay].
Proof.
  intros Hd H0 H1 delay. split; [now apply delay_range|].
  subst delay. run_monad.
  destruct (active_span e); cbn.
  - repeat split. eexists [_; _; _]. split; reflexivity.
  - repeat split. eexists [_]. split; reflexivity.
Qed.

Lemma slow_spec_witness :
  1000 <= Qfloor (mul (random sample_env) 3000) + 1000 < 4000.
Proof.
  apply (proj1 (slow_spec sample_env (sample_request "GET" "/api/slow" (VObj []))
                  users ltac:(reflexivity) ltac:(discriminate)
                  ltac:(reflexivity))).
Defined.

(** The product is rounded before [Math.floor]: a third, as a double, times
    3000 is just below 1000 and rounds to it, so the delay is 2000. *)
Example delay_of_a_third :
  is_double (6004799503160661 # 18014398509481984) = true /\
  Qfloor ((6004799503160661 # 18014398509481984) * 3000) = 999 /\
  Qfloor (mul (6004799503160661 # 18014398509481984) 3000) + 1000 = 2000.
Proof. repeat split; vm_compute; reflexivity. Qed.

(** ** The listener of the pipeline *)

(** No handler writes the log record of the pipeline. *)
Lemma router_quiet e req d us :
  filter is_request_log (trace (router e req d us)) = [].
Proof.
  destruct d as [ep | st]; [destruct ep|]; run_monad.
  all: try (destruct (active_span e); reflexivity).
  - destruct (active_span e); cbn;
      match goal with |- context [find ?f us] => destruct (find f us) end;
      reflexivity.
  - destruct (nullish (req_body req)); cbn; [reflexivity|].
    destruct (active_span e); cbn;
      destruct (negb (truthy (prop (req_body req) "name"))
                || negb (truthy (prop (req_body req) "email")));
      reflexivity.
Qed.

(** C4. A request runs the listener of the pipeline once, after the
    handler: the trace of the request is the handler's, which holds no
    metric and no pipeline log record, followed by the listener's, which is,
    in this order, one increment of the counter and one observation of the
    histogram under the same labels, then the span part (nothing without a
    span; otherwise the attributes, with at most one change of status), then
    one log record at level info. *)
Theorem pipeline_emits_once e req d us :
  exists res us' handler_trace l span_part fields,
    router e req d us = (Normal res, us', handler_trace) /\
    app e req d us =
      (Normal res, us',
       handler_trace ++
       [Inc l; Observe l (elapsed e)] ++ span_part ++
       [Logged info "HTTP Request" fields]) /\
    trace (on_finish e req d res us') =
      [Inc l; Observe l (elapsed e)] ++ span_part ++
      [Logged info "HTTP Request" fields] /\
    filter is_metric handler_trace = [] /\
    filter is_request_log handler_trace = [] /\
    filter is_metric span_part = [] /\
    filter is_log span_part = [] /\
    (length (filter is_status span_part) <= 1)%nat /\
    (active_span e = false -> span_part = []) /\
    filter is_metric (trace (app e req d us)) =
      [Inc l; Observe l (elapsed e)] /\
    filter is_request_log (trace (app e req d us)) =
      [Logged info "HTTP Request" fields].
Proof.
  destruct (router_run e req d us) as (res & us' & t & Hr & Hm & _).
  pose proof (router_quiet e req d us) as Hq. rewrite Hr in Hq. cbn in Hq.
  exists res, us', t.
  rewrite (app_run _ _ _ _ _ _ _ Hr), (on_finish_run e req d res us').
  unfold trace. cbn [snd]. rewrite !filter_app, Hm, Hq.
  run_monad.
  destruct (active_span e);
    [destruct (400 <=? statusCode res)|]; cbn;
    eexists;
    [eexists [_; _] | eexists [_] | exists []];
    eexists; repeat split; auto; discriminate.
Qed.

(** C6. The one metric sample of a request carries the labels
    [{method, route, status_code}], where [route] is the template of the
    route the framework resolved, and the raw path of the request when it
    resolved none. *)
Theorem metric_labels_spec e req d us :
  exists res,
    outcome (app e req d us) = Normal res /\
    (forall ep, d = Matched ep ->
       let l := {| method := req_method req;
                   route_label := path (route_of ep);
                   status_code := statusCode res |} in
       filter is_metric (trace (app e req d us)) =
       [Inc l; Observe l (elapsed e)]) /\
    (forall status, d = Unmatched status ->
       let l := {| method := req_method req;
                   route_label := req_path req;
                   status_code := statusCode res |} in
       filter is_metric (trace (app e req d us)) =
       [Inc l; Observe l (elapsed e)]).
Proof.
  destruct (router_run e req d us) as (res & us' & t & Hr & Hm & _).
  exists res. rewrite (app_run _ _ _ _ _ _ _ Hr).
  unfold trace, outcome. cbn [fst snd]. rewrite !filter_app, Hm.
  split; [reflexivity|].
  split; intros x ->; run_monad;
    (destruct (active_span e);
     [destruct (400 <=? statusCode res)|]); reflexivity.
Qed.

(** ** The span after a request *)

Lemma run_span_app s t1 t2 :
  run_span s (t1 ++ t2) = run_span (run_span s t1) t2.
Proof. apply fold_left_app. Qed.

Lemma req_get_user_agent req :
  req_get req "User-Agent" =
  match lookup "user-agent" (req_headers req) with
  | Some ua => VStr ua
  | None => VUndefined
  end.
Proof. reflexivity. Qed.

Lemma or_else_header (h : option string) :
  or_else match h with Some ua => VStr ua | None => VUndefined end (VStr "") =
  VStr match h with Some ua => ua | None => "" end.
Proof.
  destruct h as [ua|]; [|reflexivity].
  unfold or_else. cbn. destruct (ua =? "")%string eqn:E; [|reflexivity].
  apply String.eqb_eq in E. now subst.
Qed.

(** C5. With an active span, once a request has finished the span carries
    the attributes [http.method], [http.url], [http.status_code],
    [http.user_agent] (the empty string without a [User-Agent] header) and
    [http.request_duration]; and the listener sets the status of the span,
    to error with the message ["HTTP <status code>"], exactly when the
    status code is 400 or more (otherwise the status stays what the handler
    left). *)
Theorem span_annotation_spec e req d us s :
  active_span e = true ->
  exists res us' handler_trace,
    router e req d us = (Normal res, us', handler_trace) /\
    outcome (app e req d us) = Normal res /\
    let listener_trace := trace (on_finish e req d res us') in
    let before := run_span s handler_trace in
    let after := run_span s (trace (app e req d us)) in
    let message := ("HTTP " ++ string_of_Z (statusCode res))%string in
    lookup "http.method" (attributes after) = Some (VStr (req_method req)) /\
    lookup "http.url" (attributes after) = Some (VStr (req_url req)) /\
    lookup "http.status_code" (attributes after) =
      Some (VNum (Fin (statusCode res))) /\
    lookup "http.user_agent" (attributes after) =
      Some (VStr match lookup "user-agent" (req_headers req) with
                 | Some ua => ua
                 | None => ""
                 end) /\
    lookup "http.request_duration" (attributes after) =
      Some (VDec (elapsed e)) /\
    (forall code text,
       In (SetStatus code text) listener_trace <->
       code = ERROR /\ text = message /\ 400 <= statusCode res) /\
    (400 <= statusCode res -> status after = (ERROR, message)) /\
    (statusCode res < 400 -> status after = status before).
Proof.
  intros Hs.
  destruct (router_run e req d us) as (res & us' & t & Hr & _ & _).
  exists res, us', t. split; [exact Hr|].
  rewrite (app_run _ _ _ _ _ _ _ Hr), (on_finish_run e req d res us').
  unfold trace, outcome. cbn [fst snd]. split; [reflexivity|].
  cbn zeta. rewrite run_span_app.
  generalize (run_span s t) as s0. intros s0.
  run_monad. rewrite req_get_user_agent, or_else_header, Hs.
  destruct (400 <=? statusCode res) eqn:Hc; cbn;
    [apply Z.leb_le in Hc | apply Z.leb_gt in Hc];
    repeat match goal with |- _ /\ _ => split end;
    try reflexivity; try lia.
  - intros code text. split.
    + intros [H | [H | [H | [H | [H | []]]]]]; inversion H; subst; auto.
    + intros (-> & -> & _). auto 6.
  - intros code text. split.
    + intros [H | [H | [H | [H | []]]]]; inversion H.
    + intros (_ & _ & H). lia.
Qed.

Lemma span_annotation_spec_witness :
  exists res us' handler_trace,
    router sample_env (sample_request "GET" "/api/users/999" (VObj []))
      (Matched (UserById "999")) users = (Normal res, us', handler_trace) /\
    outcome (app sample_env (sample_request "GET" "/api/users/999" (VObj []))
               (Matched (UserById "999")) users) = Normal res.
Proof.
  destruct (span_annotation_spec sample_env
              (sample_request "GET" "/api/users/999" (VObj []))
              (Matched (UserById "999")) users
              {| attributes := []; events := []; status := (UNSET, "") |}
              eq_refl) as (res & us' & t & Hr & Ho & _).
  exists res, us', t. split; [exact Hr | exact Ho].
Defined.

(** ** The k-th user has the identifier k *)

Lemma nth_error_map_seq {A} (f : nat -> A) n : forall s k x,
  nth_error (map f (seq s n)) k = Some x -> x = f (s + k)%nat.
Proof.
  induction n as [| n IH]; intros s k x H; [now destruct k|].
  destruct k as [| k]; cbn in H.
  - injection H as <-. now rewrite Nat.add_0_r.
  - apply IH in H. now rewrite Nat.add_succ_r.
Qed.

(** X1. The identifiers of the array are always 1, 2, ..., n in this
    order, n being the number of users: the k-th user ever stored has the
    identifier k. *)
Theorem ids_are_consecutive us :
  reachable us ->
  map User.id us = ids_upto (length us) /\
  (forall k u, nth_error us k = Some u ->
     User.id u = Fin (Z.of_nat k + 1)).
Proof.
  intros Hre. pose proof (reachable_ids us Hre) as Hids.
  split; [exact Hids|]. intros k u Hk.
  apply (map_nth_error User.id) in Hk. rewrite Hids in Hk.
  apply nth_error_map_seq in Hk. rewrite Hk. f_equal. lia.
Qed.

Lemma ids_are_consecutive_witness :
  map User.id users = [Fin 1; Fin 2; Fin 3; Fin 4].
Proof.
  apply (proj1 (ids_are_consecutive users reachable_start)).
Defined.

(** ** Which identifiers are found *)

Lemma user_found_iff us e req id_param :
  reachable us ->
  exists res,
    outcome (app e req (Matched (UserById id_param)) us) = Normal res /\
    (statusCode res = 200 \/ statusCode res = 404) /\
    (statusCode res = 200 <->
     exists z, parseInt id_param = Fin z /\ 1 <= z <= Z.of_nat (length us)).
Proof.
  intros Hre.
  pose proof (reachable_ids us Hre) as Hids.
  destruct (reachable_well_formed us Hre) as (_ & Hfin & Hnd).
  destruct (user_handler_run id_param e req us) as [t Hr].
  rewrite (app_run _ _ _ _ _ _ _ Hr). cbn [outcome fst].
  destruct (find (fun v => strict_eq (User.id v) (parseInt id_param)) us)
    as [u|] eqn:Hfind; (eexists; split; [reflexivity|]); cbn.
  - split; [now left|]. split; [intros _ | reflexivity].
    apply find_some in Hfind as [Hin Heq]. apply strict_eq_true in Heq.
    apply (in_map User.id) in Hin. rewrite Hids, Heq in Hin.
    destruct (parseInt id_param) as [| | | z] eqn:Hp;
      try (apply in_map_iff in Hin as (i & Hi & _); discriminate Hi).
    exists z. split; [reflexivity|]. now apply in_ids_upto.
  - split; [now right|]. split; [discriminate|].
    intros (z & Hp & Hz). exfalso.
    apply in_ids_upto in Hz. rewrite <- Hids in Hz.
    apply in_map_iff in Hz as (u & Hu & Hin).
    rewrite (find_by_id us (parseInt id_param) u) in Hfind;
      [discriminate | auto | auto | congruence | rewrite Hp; now eexists].
Qed.

(** X2. On a running application [GET /api/users/:id] answers 200 or 404,
    and 200 exactly when the parameter parses to an integer between 1 and
    the number of users.  So a decimal numeral, also after white space
    (U+00A0 and the like included), gets 200 exactly when it lies between 1
    and the number of users, and a parameter that is not numeric gets
    404. *)
Theorem get_user_by_id_found_iff us e req id_param :
  reachable us ->
  (exists res,
     outcome (app e req (Matched (UserById id_param)) us) = Normal res /\
     (statusCode res = 200 \/ statusCode res = 404) /\
     (statusCode res = 200 <->
      exists z, parseInt id_param = Fin z /\ 1 <= z <= Z.of_nat (length us)) /\
     (not_numeric id_param = true -> statusCode res = 404)) /\
  (forall z blanks,
     Forall (fun cp => In cp white_space) blanks ->
     exists res,
       outcome (app e req
                  (Matched (UserById (utf8_string blanks ++ string_of_Z z)))
                  us) = Normal res /\
       (statusCode res = 200 <-> 1 <= z <= Z.of_nat (length us))).
Proof.
  intros Hre. split.
  - destruct (user_found_iff us e req id_param Hre)
      as (res & Ho & Hs & Hiff).
    exists res. repeat split; auto; try apply Hiff.
    intros Hn. apply parseInt_not_numeric in Hn.
    destruct Hs as [Hs | Hs]; [|exact Hs].
    apply Hiff in Hs as (z & Hz & _). congruence.
  - intros z blanks Hb.
    destruct (user_found_iff us e req
                (utf8_string blanks ++ string_of_Z z) Hre)
      as (res & Ho & _ & Hiff).
    exists res. split; [exact Ho|].
    rewrite (parseInt_skips_white _ _ Hb), parseInt_string_of_Z in Hiff.
    rewrite Hiff. split.
    + intros (z' & Hz & Hr). now injection Hz as <-.
    + intros Hr. now exists z.
Qed.

Lemma get_user_by_id_found_iff_witness :
  exists res,
    outcome (app sample_env (sample_request "GET" "/api/users/999" (VObj []))
               (Matched (UserById "999")) users) = Normal res /\
    (statusCode res = 200 \/ statusCode res = 404).
Proof.
  destruct (proj1 (get_user_by_id_found_iff users sample_env
                     (sample_request "GET" "/api/users/999" (VObj [])) "999"
                     reachable_start)) as (res & Ho & Hs & _).
  exists res. split; [exact Ho | exact Hs].
Defined.

(** X3. Every stored user is fetched by the decimal rendering of its
    identifier: [parseInt] reads back what the rendering wrote, and the
    reply is 200 with that user. *)
Theorem get_user_by_decimal_id us e req u :
  reachable us -> In u us ->
  exists z,
    User.id u = Fin z /\
    parseInt (string_of_Z z) = Fin z /\
    outcome (app e req (Matched (UserById (string_of_Z z))) us) =
    Normal (json 200 (VObj [("user", user_value u);
                            ("timestamp", VStr (iso_now e))])).
Proof.
  intros Hre Hin.
  destruct (reachable_well_formed us Hre) as (_ & Hfin & Hnd).
  rewrite Forall_forall in Hfin.
  destruct (Hfin (User.id u) (in_map _ _ _ Hin)) as [z Hz].
  exists z. split; [exact Hz|]. split; [apply parseInt_string_of_Z|].
  destruct (user_handler_run (string_of_Z z) e req us) as [t Hr].
  rewrite (app_run _ _ _ _ _ _ _ Hr). cbn [outcome fst].
  rewrite parseInt_string_of_Z, (find_by_id us (Fin z) u); auto.
  now eexists.
Qed.

Lemma get_user_by_decimal_id_witness :
  exists z,
    Fin 3 = Fin z /\
    parseInt (string_of_Z z) = Fin z /\
    outcome (app sample_env (sample_request "GET" "/api/users/3" (VObj []))
               (Matched (UserById (string_of_Z z))) users) =
    Normal (json 200
              (VObj [("user",
                      VObj [("id", VNum (Fin 3));
                            ("name", VStr "Charlie Brown");
                            ("email", VStr "charlie@example.com");
                            ("role", VStr "user")]);
                     ("timestamp", VStr "2024-01-01T00:00:00.000Z")])).
Proof.
  apply (get_user_by_decimal_id users sample_env
           (sample_request "GET" "/api/users/3" (VObj []))
           {| User.id := Fin 3; User.name := VStr "Charlie Brown";
              User.email := VStr "charlie@example.com";
              User.role := VStr "user" |} reachable_start).
  cbn. auto.
Defined.

(** ** Text after the numeral *)







(** ** Tracing does not change what a request does *)

Ltac split_cases :=
  repeat (cbn;
          match goal with
          | |- context [match find ?f ?l with _ => _ end] =>
              destruct (find f l)
          | |- context [if ?c then _ else _] => destruct c
          end).

(** X5. Whether a span is active changes neither the reply nor the array
    nor any log record, metric or timer: without a span the trace of a
    request is the one with a span, less the calls on the span; so every
    call on the span is guarded by its presence. *)
Theorem tracing_is_transparent e req d us :
  let traced := app (set_active_span true e) req d us in
  let plain := app (set_active_span false e) req d us in
  outcome plain = outcome traced /\
  store plain = store traced /\
  trace plain = without_span_effects (trace traced) /\
  filter is_span_effect (trace plain) = [].
Proof.
  destruct d as [ep | st]; [destruct ep|]; run_monad;
    unfold without_span_effects; split_cases; repeat split.
Qed.

(** ** Handlers report what they answer *)

Ltac no_such_effect :=
  let H := fresh in
  intros [? H]; cbn in H;
  repeat (destruct H as [H | H]; [discriminate H|]); contradiction.

(** X6. A handler answers 200, 201, 400, 404 or 500, and says so as it
    goes: apart from [/metrics], which does nothing but answer, it writes
    exactly one log record, at level info for an answer below 400, warn for
    404 and error for 400 and 500; and with an active span it marks the
    span as error exactly when it answers 400 or more. *)
Theorem handler_reports_errors e req ep us :
  nullish (req_body req) = false ->
  exists res us' t,
    handler ep e req us = (Normal res, us', t) /\
    In (statusCode res) [200; 201; 400; 404; 500] /\
    (ep = Metrics -> t = []) /\
    (ep <> Metrics ->
     exists lv message fields,
       filter is_log t = [Logged lv message fields] /\
       (statusCode res < 400 -> lv = info) /\
       (statusCode res = 404 -> lv = warn) /\
       (statusCode res = 400 \/ statusCode res = 500 -> lv = error)) /\
    (active_span e = true ->
     ((exists m, In (SetStatus ERROR m) t) <-> 400 <= statusCode res)).
Proof.
  intros Hb. destruct ep; run_monad; rewrite ?Hb; split_cases;
    (do 3 eexists; split; [reflexivity|]); cbn;
    repeat match goal with |- _ /\ _ => split end;
    lazymatch goal with
    | |- _ \/ _ => tauto
    | |- _ = Metrics -> _ => first [discriminate | reflexivity]
    | |- _ <> Metrics -> _ =>
        first [ intros H; now contradiction H
              | intros _; do 3 eexists; split; [reflexivity|];
                repeat split; intros; first [reflexivity | lia] ]
    | |- _ = true -> _ =>
        first [ discriminate
              | intros _; split;
                [ first [intros _; lia | no_such_effect]
                | first [intros H; exfalso; lia
                        | intros _; eexists; cbn; eauto 6] ] ]
    end.
Qed.

Lemma handler_reports_errors_witness :
  exists res us' t,
    handler ErrorRoute sample_env
      (sample_request "GET" "/api/error" (VObj [])) users =
    (Normal res, us', t) /\
    In (statusCode res) [200; 201; 400; 404; 500].
Proof.
  destruct (handler_reports_errors sample_env
              (sample_request "GET" "/api/error" (VObj [])) ErrorRoute users
              eq_refl) as (res & us' & t & Hh & Hs & _).
  exists res, us', t. split; [exact Hh | exact Hs].
Defined.

(** ** Routes that do not look at the array *)

(** X7. [/], [/api/health], [/api/slow], [/api/error] and [/metrics]
    answer the same whatever the array holds and whatever the request
    carries, with status 500 for [/api/error] and 200 for the others, and
    leave the array as it is. *)
Theorem static_endpoints e ep :
  In ep [Root; Health; Slow; ErrorRoute; Metrics] ->
  forall req req' us us',
    outcome (app e req (Matched ep) us) =
      outcome (app e req' (Matched ep) us') /\
    store (app e req (Matched ep) us) = us /\
    exists res,
      outcome (app e req (Matched ep) us) = Normal res /\
      statusCode res = match ep with ErrorRoute => 500 | _ => 200 end.
Proof.
  intros Hep req req' us us'.
  repeat (destruct Hep as [<- | Hep]); try contradiction;
    run_monad; split_cases; repeat split; eexists; split; reflexivity.
Qed.

Lemma static_endpoints_witness :
  outcome (app sample_env (sample_request "GET" "/api/error" (VObj []))
             (Matched ErrorRoute) users) =
  outcome (app sample_env (sample_request "HEAD" "/api/error?x=1" (VObj []))
             (Matched ErrorRoute) []).
Proof.
  apply (proj1 (static_endpoints sample_env ErrorRoute
                  ltac:(cbn; tauto)
                  (sample_request "GET" "/api/error" (VObj []))
                  (sample_request "HEAD" "/api/error?x=1" (VObj []))
                  users [])).
Defined.

(** ** The array and the status 201 *)

(** X8. A routed request always gets an answer; the array grows, by the
    one user appended at its end, exactly when that answer is 201, and is
    otherwise left as it was. *)
Theorem store_grows_with_201 e req ep us :
  exists res,
    outcome (app e req (Matched ep) us) = Normal res /\
    (statusCode res = 201 ->
     store (app e req (Matched ep) us) = us ++ [new_user us (req_body req)]) /\
    (statusCode res <> 201 -> store (app e req (Matched ep) us) = us) /\
    length (store (app e req (Matched ep) us)) =
      (length us + if (statusCode res =? 201)%Z then 1 else 0)%nat.
Proof.
  destruct ep; run_monad; split_cases; eexists;
    (split; [reflexivity|]); cbn;
    repeat split; intros; try reflexivity; try lia; try congruence;
    rewrite ?length_app; cbn; lia.
Qed.

(** ** Creating, then reading *)

(** X9. After a successful [POST /api/users], [GET /api/users] lists the
    users there were, in the same order, followed by the new one, and its
    [total] is one more than before. *)
Theorem create_then_list us e1 req1 e2 req2 :
  truthy (prop (req_body req1) "name") = true ->
  truthy (prop (req_body req1) "email") = true ->
  let created := new_user us (req_body req1) in
  let us1 := store (app e1 req1 (Matched CreateUser) us) in
  outcome (app e2 req2 (Matched UsersList) us1) =
  Normal (json 200
            (VObj [("users",
                    VArr (map user_value us ++ [user_value created]));
                   ("total", VNum (Fin (Z.of_nat (length us) + 1)));
                   ("timestamp", VStr (iso_now e2))])).
Proof.
  intros Hn He created us1.
  destruct (create_handler_created e1 req1 us Hn He) as [t Hr].
  apply (router_of_handler CreateUser) in Hr.
  subst us1. rewrite (app_run _ _ _ _ _ _ _ Hr). cbn [store fst snd].
  destruct (users_handler_run e2 req2 (us ++ [new_user us (req_body req1)]))
    as [t2 H2].
  rewrite (app_run _ _ _ _ _ _ _ H2). cbn [outcome fst].
  unfold length_of. rewrite map_app, length_app, Nat2Z.inj_add.
  reflexivity.
Qed.

Lemma create_then_list_witness :
  outcome (app sample_env (sample_request "GET" "/api/users" (VObj []))
             (Matched UsersList)
             (store (app sample_env
                       (sample_request "POST" "/api/users" sample_body)
                       (Matched CreateUser) users))) =
  Normal (json 200
            (VObj [("users",
                    VArr (map user_value users ++
                          [user_value (new_user users sample_body)]));
                   ("total", VNum (Fin 5));
                   ("timestamp", VStr "2024-01-01T00:00:00.000Z")])).
Proof.
  apply (create_then_list users sample_env
           (sample_request "POST" "/api/users" sample_body) sample_env
           (sample_request "GET" "/api/users" (VObj [])) eq_refl eq_refl).
Defined.

Lemma new_user_id us body :
  reachable us ->
  User.id (new_user us body) = Fin (Z.of_nat (length us) + 1).
Proof.
  intros Hre. cbn [new_user User.id].
  rewrite (reachable_ids us Hre), Math_max_ids_upto; [reflexivity|].
  destruct (reachable_well_formed us Hre) as (Hne & _).
  destruct us; [contradiction | cbn; lia].
Qed.

(** X10. On a running application holding n users, a successful
    [POST /api/users] numbers its user n + 1, and [GET /api/users/<n+1>]
    then answers 200 with that user. *)
Theorem create_then_get us e1 req1 e2 req2 :
  reachable us ->
  truthy (prop (req_body req1) "name") = true ->
  truthy (prop (req_body req1) "email") = true ->
  let n := Z.of_nat (length us) in
  let created := new_user us (req_body req1) in
  let us1 := store (app e1 req1 (Matched CreateUser) us) in
  User.id created = Fin (n + 1) /\
  outcome (app e2 req2 (Matched (UserById (string_of_Z (n + 1)))) us1) =
  Normal (json 200 (VObj [("user", user_value created);
                          ("timestamp", VStr (iso_now e2))])).
Proof.
  intros Hre Hn He n created us1.
  assert (Hre1 : reachable us1) by (apply reachable_request; exact Hre).
  destruct (create_handler_created e1 req1 us Hn He) as [t Hr].
  apply (router_of_handler CreateUser) in Hr.
  assert (Hus1 : us1 = us ++ [created]).
  { subst us1. now rewrite (app_run _ _ _ _ _ _ _ Hr). }
  assert (Hid : User.id created = Fin (n + 1)).
  { now apply new_user_id. }
  split; [exact Hid|].
  destruct (reachable_well_formed us1 Hre1) as (_ & Hfin & Hnd).
  destruct (user_handler_run (string_of_Z (n + 1)) e2 req2 us1) as [t2 H2].
  rewrite (app_run _ _ _ _ _ _ _ H2). cbn [outcome fst].
  rewrite parseInt_string_of_Z, (find_by_id us1 (Fin (n + 1)) created);
    auto; [| now eexists].
  rewrite Hus1. apply in_or_app. right. now left.
Qed.

Lemma create_then_get_witness :
  User.id (new_user users sample_body) = Fin 5.
Proof.
  apply (proj1 (create_then_get users sample_env
                  (sample_request "POST" "/api/users" sample_body)
                  sample_env (sample_request "GET" "/api/users/5" (VObj []))
                  reachable_start eq_refl eq_refl)).
Defined.

(** X11. Neither name nor email has to be unique: the same valid body
    posted twice makes two users, equal in name, email and role, numbered
    n + 1 and n + 2 after the n users there were. *)
Theorem same_body_twice us e1 e2 req :
  reachable us ->
  truthy (prop (req_body req) "name") = true ->
  truthy (prop (req_body req) "email") = true ->
  let n := Z.of_nat (length us) in
  let body := req_body req in
  let made (k : Z) :=
    {| User.id := Fin (n + k); User.name := prop body "name";
       User.email := prop body "email";
       User.role := default_to (VStr "user") (prop body "role") |} in
  store (app e2 req (Matched CreateUser)
           (store (app e1 req (Matched CreateUser) us))) =
  us ++ [made 1; made 2].
Proof.
  intros Hre Hn He n body made.
  pose proof (reachable_request us e1 req (Matched CreateUser) Hre) as Hre1.
  destruct (create_handler_created e1 req us Hn He) as [t1 H1].
  apply (router_of_handler CreateUser) in H1.
  rewrite (app_run _ _ _ _ _ _ _ H1) in *. cbn [store fst snd] in *.
  destruct (create_handler_created e2 req
              (us ++ [new_user us (req_body req)]) Hn He) as [t2 H2].
  apply (router_of_handler CreateUser) in H2.
  rewrite (app_run _ _ _ _ _ _ _ H2). cbn [store fst snd].
  rewrite <- app_assoc. f_equal. cbn [List.app].
  pose proof (new_user_id us (req_body req) Hre) as Hid1.
  pose proof (new_user_id _ (req_body req) Hre1) as Hid2.
  rewrite length_app, Nat2Z.inj_add, <- Z.add_assoc in Hid2.
  subst made n body. cbn beta.
  f_equal; [| f_equal]; unfold new_user at 1; f_equal;
    [exact Hid1 | exact Hid2].
Qed.

Lemma same_body_twice_witness :
  map User.id
    (store (app sample_env (sample_request "POST" "/api/users" sample_body)
              (Matched CreateUser)
              (store (app sample_env
                        (sample_request "POST" "/api/users" sample_body)
                        (Matched CreateUser) users)))) =
  [Fin 1; Fin 2; Fin 3; Fin 4; Fin 5; Fin 6].
Proof.
  rewrite (same_body_twice users sample_env sample_env
             (sample_request "POST" "/api/users" sample_body)
             reachable_start eq_refl eq_refl).
  reflexivity.
Defined.

(** ** The request counter over a run *)

Lemma filter_nil_impl {A} (p q : A -> bool) l :
  (forall x, p x = true -> q x = true) ->
  filter q l = [] -> filter p l = [].
Proof.
  intros Hpq. induction l as [| x l IH]; [reflexivity|]. cbn.
  destruct (q x) eqn:Hq; [discriminate|]. intros Hl.
  destruct (p x) eqn:Hp; [|now apply IH].
  apply Hpq in Hp. congruence.
Qed.

Lemma app_increments_once e req d us :
  length (filter is_inc (trace (app e req d us))) = 1%nat.
Proof.
  destruct (router_run e req d us) as (res & us' & t & Hr & Hm & _).
  rewrite (app_run _ _ _ _ _ _ _ Hr). cbn [trace snd].
  rewrite filter_app, (filter_nil_impl is_inc is_metric t); auto.
  - run_monad. split_cases; reflexivity.
  - now intros [].
Qed.

Lemma health_increments e req us :
  requests_total {| method := req_method req; route_label := "/api/health";
                    status_code := 200 |}
    (trace (app e req (Matched Health) us)) = 1%nat.
Proof.
  unfold requests_total, labels_eqb. run_monad.
  destruct (active_span e); cbn; now rewrite String.eqb_refl.
Qed.

Lemma serve_increments finished e req d us :
  length (filter is_inc (trace (serve finished e req d us))) =
  if finished then 1%nat else 0%nat.
Proof.
  destruct finished; cbn [serve]; [apply app_increments_once|].
  destruct (router_run e req d us) as (res & us' & t & Hr & Hm & _).
  rewrite Hr. cbn [trace snd].
  rewrite (filter_nil_impl is_inc is_metric t); auto. now intros [].
Qed.

(** X12. Over any run of requests the counter [http_requests_total] is
    incremented once for each request whose response finished and not at
    all for one whose response never did; and under the labels of
    [/api/health] with status 200 and a given method it has counted at
    least every finished request of that method the router gave to
    [/api/health]. *)
Theorem requests_are_counted rs m : forall us,
  length (filter is_inc (serve_trace rs us)) = length (filter fst rs) /\
  (length (filter (fun r => fst r && is_health m (snd r)) rs) <=
   requests_total {| method := m; route_label := "/api/health";
                     status_code := 200 |} (serve_trace rs us))%nat.
Proof.
  induction rs as [| [finished [[e req] d]] rs IH]; intros us;
    [split; cbn; lia|].
  cbn [serve_trace].
  destruct (IH (store (serve finished e req d us))) as [IH1 IH2].
  unfold requests_total in *. rewrite !filter_app, !length_app.
  rewrite serve_increments, IH1. cbn [filter fst snd].
  split; [destruct finished; reflexivity|].
  assert (Hskip : forall a b c : nat, (a <= c -> a <= b + c)%nat)
    by (intros; lia).
  destruct finished; cbn [andb]; [|now apply Hskip].
  destruct (is_health m (e, req, d)) eqn:Hh; [|now apply Hskip].
  unfold is_health in Hh. cbn in Hh.
  destruct d as [[] |]; try discriminate.
  apply String.eqb_eq in Hh. subst m.
  pose proof (health_increments e req us) as H1.
  unfold requests_total in H1. cbn [serve]. rewrite H1.
  cbn [length Nat.add]. now apply le_n_S.
Qed.

(** ** Shutdown *)

(** X13. On [SIGTERM] the process exits with code 0 whether the SDK shuts
    down or fails to, as the last thing it does, after one line on the
    console: ["Tracing terminated"] on success, ["Error terminating
    tracing"] with the error otherwise. *)
Theorem on_SIGTERM_exits_0 shutdown :
  exists line,
    fst (on_SIGTERM shutdown) = [ConsoleLog line; Exit 0] /\
    (shutdown = Resolved -> line = ["Tracing terminated"]) /\
    (forall err, shutdown = Rejected err ->
       line = ["Error terminating tracing"; err]).
Proof.
  destruct shutdown as [| err]; eexists; cbn;
    (split; [reflexivity|]); split; try discriminate; auto.
  intros err' H. now injection H as <-.
Qed.

(** ** The load test *)

(** X14. [make_requests] posts only when asked for a [POST] with data to
    send: then it sends the data as JSON.  Anything else, a [POST] without
    data or any other method, goes out as a plain [curl] of the URL, that
    is a [GET] without body.  The URL is always the endpoint under
    [http://localhost:8080]. *)
Theorem make_requests_spec endpoint arg2 arg3 :
  let sent := make_requests (Some endpoint) arg2 arg3 in
  curl_url sent = (APP_URL ++ endpoint)%string /\
  (curl_X sent = Some "POST" <->
   arg2 = Some "POST" /\ exists data, arg3 = Some data /\ data <> "") /\
  (curl_X sent = Some "POST" ->
   curl_d sent = arg3 /\ curl_H sent = ["Content-Type: application/json"]) /\
  (curl_X sent <> Some "POST" ->
   curl_X sent = None /\ curl_d sent = None /\ curl_H sent = []).
Proof.
  cbn zeta. unfold make_requests, expand_default.
  assert (Hurl : (if (endpoint =? "")%string then "" else endpoint) = endpoint).
  { destruct (endpoint =? "")%string eqn:E; [|reflexivity].
    apply String.eqb_eq in E. now subst. }
  rewrite Hurl.
  destruct arg2 as [m|]; [destruct (m =? "")%string eqn:Em|];
    [apply String.eqb_eq in Em; subst m | |];
    (destruct arg3 as [dt|]; [destruct (dt =? "")%string eqn:Ed|]);
    try (apply String.eqb_eq in Ed; subst dt);
    try (destruct (m =? "POST")%string eqn:Ep;
         [apply String.eqb_eq in Ep; subst m | apply String.eqb_neq in Ep]);
    rewrite ?Ed; cbn -[APP_URL String.append];
    repeat split; try discriminate; try congruence; auto.
  all: try (intros (_ & dt' & H & Hne); congruence).
  all: try (intros (H & _); congruence).
  all: try (exists dt; split; [reflexivity | now apply String.eqb_neq]).
Qed.

(** ** The probe of the load test for a missing user *)

(** X15. The load test asks for [/api/users/999] to get a 404.  On a
    running application that is the answer as long as there are fewer than
    999 users; once there are 999 the same request is answered 200. *)
Theorem not_found_probe us e req :
  reachable us ->
  exists res,
    outcome (app e req (Matched (UserById "999")) us) = Normal res /\
    (statusCode res = 404 <-> (length us < 999)%nat) /\
    (statusCode res = 200 <-> (999 <= length us)%nat).
Proof.
  intros Hre.
  pose proof (reachable_ids us Hre) as Hids.
  destruct (reachable_well_formed us Hre) as (_ & _ & Hnd).
  destruct (user_handler_run "999" e req us) as [t Hr].
  rewrite (app_run _ _ _ _ _ _ _ Hr). cbn [outcome fst].
  change (parseInt "999") with (Fin 999).
  destruct (find (fun v => strict_eq (User.id v) (Fin 999)) us)
    as [u|] eqn:Hfind; (eexists; split; [reflexivity|]); cbn.
  - apply find_some in Hfind as [Hin Heq]. apply strict_eq_true in Heq.
    apply (in_map User.id) in Hin. rewrite Hids, Heq in Hin.
    apply in_ids_upto in Hin. split; split; intros; lia.
  - assert (~ (999 <= length us)%nat) as Hlt.
    { intros Hge.
      assert (In (Fin 999) (map User.id us)) as Hin.
      { rewrite Hids. apply in_ids_upto. lia. }
      apply in_map_iff in Hin as (u & Hu & Hin).
      rewrite (find_by_id us (Fin 999) u) in Hfind;
        [discriminate | auto | auto | auto | now eexists]. }
    split; split; intros; lia.
Qed.

Lemma not_found_probe_witness :
  exists res,
    outcome (app sample_env (sample_request "GET" "/api/users/999" (VObj []))
               (Matched (UserById "999")) users) = Normal res /\
    statusCode res = 404.
Proof.
  destruct (not_found_probe users sample_env
              (sample_request "GET" "/api/users/999" (VObj []))
              reachable_start) as (res & Ho & H404 & _).
  exists res. split; [exact Ho|]. apply H404. cbn. lia.
Defined.

(** ** Metrics, span and log tell the same story *)

(** X16. With an active span, what the listener reports of a request is
    the same on all three channels: the status code of the metric labels,
    of the span attribute and of the log record is the status of the
    reply; the duration observed by the histogram is the one on the span
    and in the log; method and URL agree; the log record also carries the
    raw [User-Agent] header ([undefined] when absent, where the span gets
    the empty string) and the address of the client. *)
Theorem signals_agree e req d us :
  active_span e = true ->
  exists res l attrs fields before after,
    outcome (app e req d us) = Normal res /\
    filter is_metric (trace (app e req d us)) =
      [Inc l; Observe l (elapsed e)] /\
    trace (app e req d us) =
      before ++ SetAttributes attrs :: after /\
    filter is_request_log (trace (app e req d us)) =
      [Logged info "HTTP Request" fields] /\
    status_code l = statusCode res /\
    lookup "http.status_code" attrs = Some (VNum (Fin (statusCode res))) /\
    lookup "statusCode" fields = Some (VNum (Fin (statusCode res))) /\
    lookup "http.request_duration" attrs = Some (VDec (elapsed e)) /\
    lookup "duration" fields = Some (VDec (elapsed e)) /\
    lookup "http.method" attrs = Some (VStr (method l)) /\
    lookup "method" fields = Some (VStr (method l)) /\
    lookup "http.url" attrs = lookup "url" fields /\
    lookup "userAgent" fields = Some (req_get req "User-Agent") /\
    lookup "ip" fields = Some (req_ip req) /\
    map fst fields =
      ["method"; "url"; "statusCode"; "duration"; "userAgent"; "ip"].
Proof.
  intros Hs.
  destruct (router_run e req d us) as (res & us' & t & Hr & Hm & _).
  pose proof (router_quiet e req d us) as Hq. rewrite Hr in Hq. cbn in Hq.
  rewrite (app_run _ _ _ _ _ _ _ Hr).
  unfold trace, outcome. cbn [fst snd]. rewrite !filter_app, Hm, Hq.
  run_monad. rewrite Hs.
  destruct (400 <=? statusCode res); cbn;
    exists res; eexists; eexists; eexists;
    eexists (t ++ [_; _]); eexists;
    (split; [reflexivity|]); (split; [reflexivity|]);
    (split; [rewrite <- app_assoc; reflexivity|]);
    repeat split.
Qed.

Lemma signals_agree_witness :
  exists res,
    outcome (app sample_env (sample_request "GET" "/api/error" (VObj []))
               (Matched ErrorRoute) users) = Normal res.
Proof.
  destruct (signals_agree sample_env
              (sample_request "GET" "/api/error" (VObj []))
              (Matched ErrorRoute) users eq_refl)
    as (res & l & attrs & fields & before & after & Ho & _).
  exists res. exact Ho.
Defined.
